(** * SafeGuard backup server: scheduler, execution engine and HTTP routes

    A shallow embedding of [server.ts].  The SQLite handle [db] becomes an
    explicit [world] value threaded through every statement; an exception
    raised by a statement is the [None] of a small state-and-exception monad
    whose state survives the exception (the handle runs in autocommit mode, so
    statements executed before a throw stay committed).  The single [await]
    of [runBackup] splits it into the part that runs at the call and the part
    that runs when the timer fires. *)

From Stdlib Require Import ZArith List String Ascii Bool Lia.
From Stdlib Require Import Permutation Sorting.Sorted.
Import ListNotations.
Set Warnings "-register-all".
Local Open Scope string_scope.
Local Open Scope Z_scope.
Local Open Scope list_scope.

(** ** Rows of the two tables *)

(** [backup_tasks].  [schedule_days], [schedule_time] and [last_run] are
    nullable TEXT columns.  Timestamps written by [CURRENT_TIMESTAMP] have the
    fixed-width form [YYYY-MM-DD HH:MM:SS], whose text order is the order of
    the instants; a timestamp is kept as its number of seconds. *)
Module Task.
Record t : Type := mk {
  id : Z;
  name : string;
  source_path : string;
  destination_path : string;
  destination_type : string;
  backup_type : string;
  schedule_days : option string;
  schedule_time : option string;
  last_run : option Z;
  status : string;
  email_notifications : Z
}.
End Task.

(** [backup_logs]. *)
Module Log.
Record t : Type := mk {
  id : Z;
  task_id : Z;
  timestamp : Z;
  status : string;
  message : string;
  report : option string
}.
End Log.

(** A value bound to a [?] of a prepared statement: [task.id] read from a row
    is a number, [req.params.id] is the text of the URL segment. *)
Inductive sqlval : Type :=
| SInt (z : Z)
| SText (s : string).

(** The statements [server.ts] prepares, as they are issued on the handle. *)
Inductive statement : Type :=
| UpdateRunning (k : sqlval)
| UpdateIdle (k : sqlval)
| UpdateIdleLastRun (k : sqlval)
| InsertLog (k : Z) (st msg : string) (rep : option string)
| InsertTask
| DeleteTask (k : sqlval)
| SelectTasks
| SelectTask (k : sqlval)
| SelectLogs.

(** The process state the routes and the scheduler share: both tables in
    rowid order, the AUTOINCREMENT counters of [sqlite_sequence], the wall
    clock that [CURRENT_TIMESTAMP] reads (seconds), the runs of [runBackup]
    suspended at their [await] (each with the instant its 4000 ms timer was
    armed and the [task] argument it closed over), and two journals kept for
    the proofs: the statements issued on the handle so far, each of which
    either ran or threw, and the calls of [runBackup] made so far. *)
Record world : Type := mkWorld {
  backup_tasks : list Task.t;
  backup_logs : list Log.t;
  seq_tasks : Z;
  seq_logs : Z;
  clock : Z;
  pending : list (Z * Task.t);
  issued : list statement;
  invoked : list Task.t
}.

Definition with_tasks (ts : list Task.t) (w : world) : world :=
  mkWorld ts (backup_logs w) (seq_tasks w) (seq_logs w) (clock w)
          (pending w) (issued w) (invoked w).

Definition with_logs (ls : list Log.t) (n : Z) (w : world) : world :=
  mkWorld (backup_tasks w) ls (seq_tasks w) n (clock w)
          (pending w) (issued w) (invoked w).

Definition with_pending (ps : list (Z * Task.t)) (w : world) : world :=
  mkWorld (backup_tasks w) (backup_logs w) (seq_tasks w) (seq_logs w) (clock w)
          ps (issued w) (invoked w).

Definition with_issued (ss : list statement) (w : world) : world :=
  mkWorld (backup_tasks w) (backup_logs w) (seq_tasks w) (seq_logs w) (clock w)
          (pending w) ss (invoked w).

Definition with_invoked (ts : list Task.t) (w : world) : world :=
  mkWorld (backup_tasks w) (backup_logs w) (seq_tasks w) (seq_logs w) (clock w)
          (pending w) (issued w) ts.

Definition with_clock (c : Z) (w : world) : world :=
  mkWorld (backup_tasks w) (backup_logs w) (seq_tasks w) (seq_logs w) c
          (pending w) (issued w) (invoked w).

(** ** JSON values, as [JSON.parse] returns them *)

Inductive json : Type :=
| JNull
| JBool (b : bool)
| JNum (literal : string)
| JStr (s : string)
| JArr (items : list json)
| JObj (fields : list (string * json)).

Definition json_is_str (day : string) (v : json) : bool :=
  match v with
  | JStr s => String.eqb s day
  | _ => false
  end.

(** [s.includes(day)] on a string: [day] occurs in [s]. *)
Fixpoint str_includes (day s : string) : bool :=
  if String.prefix day s then true
  else match s with
       | EmptyString => false
       | String _ rest => str_includes day rest
       end.

(** [days.includes(day)].  An array compares each element with [===]
    (SameValueZero), a string searches for a substring; [null] has no
    properties, and on a boolean, a number or an object [includes] is not a
    function: these throw a TypeError. *)
Definition includes (days : json) (day : string) : option bool :=
  match days with
  | JArr items => Some (existsb (json_is_str day) items)
  | JStr s => Some (str_includes day s)
  | JNull | JBool _ | JNum _ | JObj _ => None
  end.

(** ** The state-and-exception monad of the handlers *)

Definition M (A : Type) : Type := world -> world * option A.

Definition ret {A : Type} (a : A) : M A := fun w => (w, Some a).

Definition throw {A : Type} : M A := fun w => (w, None).

Definition bind {A B : Type} (m : M A) (k : A -> M B) : M B :=
  fun w => match m w with
           | (w', Some a) => k a w'
           | (w', None) => (w', None)
           end.

(** [try { body } catch (e) { handler }]. *)
Definition try_catch {A : Type} (body handler : M A) : M A :=
  fun w => match body w with
           | (w', Some a) => (w', Some a)
           | (w', None) => handler w'
           end.

Notation "x <- m ;; k" := (bind m (fun x => k))
  (at level 61, m at next level, right associativity).
Notation "m ;;; k" := (bind m (fun _ => k))
  (at level 61, right associativity).

(** ** Responses of the routes *)

Inductive body : Type :=
| BTasks (rows : list Task.t)
| BLogs (rows : list (Log.t * string))
| BId (rowid : Z)
| BSuccess
| BError (msg : string).

(** [res.json(b)] answers 200; [res.status(c).json(b)] answers [c]. *)
Record response : Type := mkResponse {
  code : Z;
  payload : body
}.

Definition json_ok (b : body) : response := mkResponse 200 b.
Definition json_error (c : Z) (msg : string) : response := mkResponse c (BError msg).

(** ** The report of a run *)

Record FileReportEntry : Type := mkFile {
  file_name : string;
  file_size : string;
  file_status : string
}.

(** [mockFiles], lines 121-126. *)
Definition mockFiles (success : bool) : list FileReportEntry :=
  [ mkFile "documento_v1.pdf" "2.4MB" "OK";
    mkFile "planilha_financeira.xlsx" "1.1MB" "OK";
    mkFile "foto_backup.jpg" "4.8MB" (if success then "OK" else "ERRO");
    mkFile "projeto_final.zip" "156MB" (if success then "OK" else "ERRO") ].

Definition dquote : string := String "034"%char EmptyString.

Definition json_quote (s : string) : string := (dquote ++ s ++ dquote)%string.

Definition stringify_file (f : FileReportEntry) : string :=
  ("{" ++ json_quote "name" ++ ":" ++ json_quote (file_name f) ++ ","
       ++ json_quote "size" ++ ":" ++ json_quote (file_size f) ++ ","
       ++ json_quote "status" ++ ":" ++ json_quote (file_status f) ++ "}")%string.

Fixpoint stringify_files (fs : list FileReportEntry) : string :=
  match fs with
  | [] => EmptyString
  | [f] => stringify_file f
  | f :: rest => (stringify_file f ++ "," ++ stringify_files rest)%string
  end.

(** [JSON.stringify(mockFiles)]: the names, sizes and outcomes of the report
    hold no character that JSON escapes. *)
Definition JSON_stringify (fs : list FileReportEntry) : string :=
  ("[" ++ stringify_files fs ++ "]")%string.

(** A text written with apostrophes where it has double quotes: the statements
    on the report spell the stored text out with it. *)
Fixpoint requote (s : string) : string :=
  match s with
  | EmptyString => EmptyString
  | String c rest =>
      String (if Ascii.eqb c "'"%char then "034"%char else c) (requote rest)
  end.

Definition opt_eqb (o : option string) (s : string) : bool :=
  match o with
  | Some x => String.eqb x s
  | None => false
  end.

Definition set_status (st : string) (t : Task.t) : Task.t :=
  Task.mk (Task.id t) (Task.name t) (Task.source_path t) (Task.destination_path t)
          (Task.destination_type t) (Task.backup_type t) (Task.schedule_days t)
          (Task.schedule_time t) (Task.last_run t) st (Task.email_notifications t).

Definition set_status_last_run (st : string) (ts : Z) (t : Task.t) : Task.t :=
  Task.mk (Task.id t) (Task.name t) (Task.source_path t) (Task.destination_path t)
          (Task.destination_type t) (Task.backup_type t) (Task.schedule_days t)
          (Task.schedule_time t) (Some ts) st (Task.email_notifications t).

(** The columns a POST /api/tasks binds: [None] is a NULL. *)
Record new_task : Type := mkNew {
  new_name : option string;
  new_source_path : option string;
  new_destination_path : option string;
  new_destination_type : option string;
  new_backup_type : option string;
  new_schedule_days : option string;
  new_schedule_time : option string;
  new_email_notifications : bool
}.

(** ** Reference instances of what the runtime supplies

    The development is parametric in [JSON.parse], in SQLite's conversion of
    a bound text and in its sorter.  The examples at the end of the file run
    the server on these instances. *)

Definition is_ws (c : ascii) : bool :=
  match c with
  | " "%char | "009"%char | "010"%char | "013"%char => true
  | _ => false
  end.

Fixpoint skip_ws (s : string) : string :=
  match s with
  | String c rest => if is_ws c then skip_ws rest else s
  | EmptyString => s
  end.

(** The characters of a string literal up to its closing quote; an escape
    or a control character is refused. *)
Fixpoint read_chars (s : string) : option (string * string) :=
  match s with
  | EmptyString => None
  | String c rest =>
      if Ascii.eqb c "034"%char then Some (EmptyString, rest)
      else if Ascii.eqb c "\"%char then None
      else if (nat_of_ascii c <? 32)%nat then None
      else match read_chars rest with
           | Some (body, after) => Some (String c body, after)
           | None => None
           end
  end.

Definition strip (p s : string) : option string :=
  if String.prefix p s
  then Some (substring (String.length p) (String.length s - String.length p) s)
  else None.

(** A reader for the JSON texts of day lists: the literals [null], [true] and
    [false], strings without escapes, and arrays of these, with JSON white
    space.  It agrees with [JSON.parse] on these texts and on texts that are
    no JSON at all; numbers, objects and escapes are beyond it, and no
    example uses them. *)
Fixpoint read_value (fuel : nat) (s : string) : option (json * string) :=
  match fuel with
  | O => None
  | S fuel' =>
      let s := skip_ws s in
      match strip "null" s, strip "true" s, strip "false" s with
      | Some r, _, _ => Some (JNull, r)
      | _, Some r, _ => Some (JBool true, r)
      | _, _, Some r => Some (JBool false, r)
      | None, None, None =>
          match s with
          | String c rest =>
              if Ascii.eqb c "034"%char then
                match read_chars rest with
                | Some (body, after) => Some (JStr body, after)
                | None => None
                end
              else if Ascii.eqb c "["%char then
                match skip_ws rest with
                | String "]"%char after => Some (JArr [], after)
                | _ =>
                    match read_items fuel' rest with
                    | Some (vs, after) => Some (JArr vs, after)
                    | None => None
                    end
                end
              else None
          | EmptyString => None
          end
      end
  end
with read_items (fuel : nat) (s : string) : option (list json * string) :=
  match fuel with
  | O => None
  | S fuel' =>
      match read_value fuel' s with
      | None => None
      | Some (v, after) =>
          match skip_ws after with
          | String "]"%char r => Some ([v], r)
          | String ","%char r =>
              match read_items fuel' r with
              | Some (vs, r') => Some (v :: vs, r')
              | None => None
              end
          | _ => None
          end
      end
  end.

Definition parse_days (s : string) : option json :=
  match read_value (2 * String.length s + 2) s with
  | Some (v, rest) =>
      match skip_ws rest with
      | EmptyString => Some v
      | _ => None
      end
  | None => None
  end.

Definition is_digit (c : ascii) : bool :=
  ((48 <=? nat_of_ascii c) && (nat_of_ascii c <=? 57))%nat.

Fixpoint digits_value (acc : Z) (s : string) : option Z :=
  match s with
  | EmptyString => Some acc
  | String c rest =>
      if is_digit c
      then digits_value (10 * acc + (Z.of_nat (nat_of_ascii c) - 48)) rest
      else None
  end.

(** The integer a text of decimal digits stands for.  SQLite converts more
    texts than these (signs, surrounding blanks, [5.0]); the examples bind
    plain digits or plain words. *)
Definition decimal_id (s : string) : option Z :=
  match s with
  | EmptyString => None
  | _ => digits_value 0 s
  end.

Definition newer (a b : Log.t * string) : bool :=
  Log.timestamp (fst b) <=? Log.timestamp (fst a).

Fixpoint insert_row (r : Log.t * string) (l : list (Log.t * string))
  : list (Log.t * string) :=
  match l with
  | [] => [r]
  | x :: rest => if newer r x then r :: l else x :: insert_row r rest
  end.

(** An insertion sort, newest first, rows of one timestamp in scan order. *)
Definition sort_rows (l : list (Log.t * string)) : list (Log.t * string) :=
  fold_right insert_row [] l.

(** No statement fails for a reason of the store. *)
Definition healthy : nat -> bool := fun _ => false.

(** Only the [n]-th statement issued fails. *)
Definition fails_at (n : nat) : nat -> bool := fun k => Nat.eqb k n.

(** The statements from the [n]-th on fail. *)
Definition fails_from (n : nat) : nat -> bool := fun k => Nat.leb n k.

(** ** The form of [App.tsx] that creates a task *)

(** [DAYS], line 58: the day buttons of the form. *)
Definition DAYS : list string :=
  ["Segunda-feira"; "Terça-feira"; "Quarta-feira"; "Quinta-feira";
   "Sexta-feira"; "Sábado"; "Domingo"].

(** The [onClick] of a day button, lines 519-524: [newDays]. *)
Definition toggle_day (day : string) (schedule_days : list string) : list string :=
  if existsb (String.eqb day) schedule_days
  then filter (fun d => negb (String.eqb d day)) schedule_days
  else schedule_days ++ [day].

(** [formData.schedule_days] after a series of clicks on day buttons, from
    the empty list the form opens with. *)
Definition click_days (clicks : list string) : list string :=
  fold_left (fun schedule_days day => toggle_day day schedule_days) clicks [].

(** The names [toLocaleDateString('en-US', { weekday: 'long' })] gives the
    seven days, line 156. *)
Definition weekdays_en : list string :=
  ["Sunday"; "Monday"; "Tuesday"; "Wednesday"; "Thursday"; "Friday"; "Saturday"].

(** ** GET /api/export-project, lines 59-92 *)

(** What [path.join(__dirname, file)] names on the disk: nothing
    ([existsSync] is false), a file [readFileSync] returns, or something
    [readFileSync] throws on (a directory, a file without read permission). *)
Inductive file_state : Type :=
| Missing
| Readable (content : string)
| Unreadable.

Definition filesToExport : list string :=
  ["package.json"; "server.ts"; "src/App.tsx"; "src/main.tsx"; "src/index.css";
   "index.html"; "vite.config.ts"; "tsconfig.json"; "metadata.json"].

(** [o[k] = v] on an object of string keys, kept in insertion order. *)
Fixpoint assign (k v : string) (o : list (string * string))
  : list (string * string) :=
  match o with
  | [] => [(k, v)]
  | (k', v') :: rest =>
      if String.eqb k' k then (k, v) :: rest else (k', v') :: assign k v rest
  end.

(** The [for] loop of lines 75-80 over [files], from the bundle [o]: [None]
    when [readFileSync] throws. *)
Fixpoint bundle_files (disk : string -> file_state) (files : list string)
  (o : list (string * string)) : option (list (string * string)) :=
  match files with
  | [] => Some o
  | file :: rest =>
      match disk file with
      | Missing => bundle_files disk rest o
      | Readable content => bundle_files disk rest (assign file content o)
      | Unreadable => None
      end
  end.

(** [existsSync] and [readFileSync] both succeed on the file. *)
Definition readable (disk : string -> file_state) (f : string) : bool :=
  match disk f with
  | Readable _ => true
  | _ => false
  end.

(** What the loop adds to the bundle for one file it can read. *)
Definition entry (disk : string -> file_state) (f : string)
  : list (string * string) :=
  match disk f with
  | Readable content => [(f, content)]
  | _ => []
  end.

Record project_bundle : Type := mkBundle {
  projectName : string;
  version : string;
  files : list (string * string);
  exportedAt : string
}.

Inductive export_response : Type :=
| ExportOk (b : project_bundle)
| ExportError (status_code : Z) (error : string).

(** The route, [now] being [new Date().toISOString()]. *)
Definition export_project (disk : string -> file_state) (now : string)
  : export_response :=
  match bundle_files disk filesToExport [] with
  | Some o => ExportOk (mkBundle "SafeGuard Backup Pro" "1.0.0" o now)
  | None => ExportError 500 "Falha ao gerar pacote do projeto"
  end.

(** The columns of a task that make its definition: all but [status] and
    [last_run]. *)
Definition definition (t : Task.t)
  : Z * string * string * string * string * string
    * option string * option string * Z :=
  (Task.id t, Task.name t, Task.source_path t, Task.destination_path t,
   Task.destination_type t, Task.backup_type t, Task.schedule_days t,
   Task.schedule_time t, Task.email_notifications t).

(** A log row as [runBackup] writes them: INICIADO without a report, or a
    terminal status with the report of that outcome. *)
Definition log_shape (l : Log.t) : Prop :=
  (Log.status l = "INICIADO" /\ Log.report l = None) \/
  (Log.status l = "SUCESSO" /\
   Log.report l = Some (JSON_stringify (mockFiles true))) \/
  (Log.status l = "FALHA" /\
   Log.report l = Some (JSON_stringify (mockFiles false))).

(** Both tables hold only what the server writes: a task is IDLE or RUNNING,
    a log row has one of the three shapes. *)
Definition well_formed (w : world) : Prop :=
  Forall (fun t => Task.status t = "IDLE" \/ Task.status t = "RUNNING")
         (backup_tasks w) /\
  Forall log_shape (backup_logs w).

(** Ids grow along both tables and none is beyond its AUTOINCREMENT
    counter. *)
Record keyed (w : world) : Prop := mkKeyed {
  keyed_tasks : StronglySorted Z.lt (map Task.id (backup_tasks w));
  keyed_task_max : Forall (fun t => Task.id t <= seq_tasks w) (backup_tasks w);
  keyed_logs : StronglySorted Z.lt (map Log.id (backup_logs w));
  keyed_log_max : Forall (fun l => Log.id l <= seq_logs w) (backup_logs w)
}.

(** ** A small installation for the examples *)

(** [JSON.stringify] of an array of day names, as POST /api/tasks stores
    it. *)
Definition days_json (days : list string) : string :=
  ("[" ++ String.concat "," (map json_quote days) ++ "]")%string.

Definition nightly : Task.t :=
  Task.mk 1 "Nightly" "/srv/data" "//nas/vault" "NAS" "FULL"
          (Some (days_json ["Monday"; "Thursday"])) (Some "09:00") None "IDLE" 1.

Definition weekly : Task.t :=
  Task.mk 2 "Weekly" "/srv/mail" "/mnt/usb" "USB" "INCREMENTAL"
          (Some (days_json ["Monday"])) (Some "09:00") None "IDLE" 0.

(** Two tasks, no log yet, at second 1000. *)
Definition office : world := mkWorld [nightly; weekly] [] 2 0 1000 [] [] [].

(** A task created with [schedule_days: null] in the request body:
    [JSON.stringify(null)] is the text [null]. *)
Definition broken : Task.t :=
  Task.mk 1 "Broken" "/srv/old" "/mnt/rdx" "RDX" "FULL"
          (Some "null") (Some "09:00") None "IDLE" 0.

(** The broken task is stored before a sound one. *)
Definition shop : world := mkWorld [broken; weekly] [] 2 0 1000 [] [] [].

(** A task with no day ticked, run on request only, stored before the
    weekly one. *)
Definition on_demand : Task.t :=
  Task.mk 1 "On demand" "/srv/cad" "//nas/cad" "NETWORK" "DIFFERENTIAL"
          (Some "[]") (Some "00:00") None "IDLE" 0.

Definition desk : world := mkWorld [on_demand; weekly] [] 2 0 1000 [] [] [].

(** The office after one successful run of the nightly task. *)
Definition archive : world :=
  mkWorld
    [Task.mk 1 "Nightly" "/srv/data" "//nas/vault" "NAS" "FULL"
             (Some (days_json ["Monday"; "Thursday"])) (Some "09:00")
             (Some 1004) "IDLE" 1;
     weekly]
    [Log.mk 1 1 1000 "INICIADO" "Processo de backup iniciado para /srv/data" None;
     Log.mk 2 1 1004 "SUCESSO" "Backup concluído com sucesso para //nas/vault"
            (Some (JSON_stringify (mockFiles true)))]
    2 2 1010 [] [] [].

(** The office four seconds after two requests to run the nightly task, one
    right after the other: both runs are suspended, the second on the row as
    the first left it. *)
Definition busy : world :=
  mkWorld
    [set_status "RUNNING" nightly; weekly]
    [Log.mk 1 1 1000 "INICIADO" "Processo de backup iniciado para /srv/data" None;
     Log.mk 2 1 1000 "INICIADO" "Processo de backup iniciado para /srv/data" None]
    2 2 1004
    [(1000, nightly); (1000, set_status "RUNNING" nightly)] [] [].

(** A task as the form creates it: Monday clicked twice, Tuesday once. *)
Definition form_task : Task.t :=
  Task.mk 3 "Form" "/srv/web" "/mnt/usb" "USB" "FULL"
          (Some (days_json (click_days
                   ["Segunda-feira"; "Terça-feira"; "Segunda-feira"])))
          (Some "09:00") None "IDLE" 1.

(** A task stored with neither days nor a time. *)
Definition unscheduled : Task.t :=
  Task.mk 4 "Unscheduled" "/srv/tmp" "/mnt/usb" "USB" "FULL"
          None None None "IDLE" 0.

(** A task sent with all its columns, and one sent without a name. *)
Definition complete_task : new_task :=
  mkNew (Some "Photos") (Some "/srv/photos") (Some "//nas/photos") (Some "NAS")
        (Some "FULL") (Some (days_json ["Friday"])) (Some "23:30") true.

Definition nameless_task : new_task :=
  mkNew None (Some "/srv/photos") (Some "//nas/photos") (Some "NAS")
        (Some "FULL") (Some (days_json ["Friday"])) (Some "23:30") true.

(** Nothing happens while a run is suspended but the four seconds of its
    timer. *)
Definition four_seconds (w : world) : world := with_clock (clock w + 4) w.

Section Server.

(** What the runtime and the database engine supply:
    - [JSON_parse]: [JSON.parse], [None] when it throws a SyntaxError;
    - [text_to_int]: the NUMERIC affinity SQLite applies to a bound text that
      is compared with the INTEGER column [id]: the integer the text stands
      for, or [None] when it stands for none;
    - [foreign_keys]: whether the handle enforces the FOREIGN KEY clause of
      [backup_logs] (PRAGMA foreign_keys); better-sqlite3 turns the pragma on
      for every handle it opens and the server never turns it off, so the
      server runs with [true];
    - [order_by]: the sorter behind [ORDER BY l.timestamp DESC], which is free
      in the order of rows of equal timestamp;
    - [faulty n]: whether the [n]-th statement issued on the handle fails for
      a reason of the store itself (I/O error, locked file). *)
Variable JSON_parse : string -> option json.
Variable text_to_int : string -> option Z.
Variable foreign_keys : bool.
Variable order_by : list (Log.t * string) -> list (Log.t * string).
Variable faulty : nat -> bool.

(** ** Statements *)

(** [WHERE id = ?]. *)
Definition matches (k : sqlval) (rowid : Z) : bool :=
  match k with
  | SInt z => z =? rowid
  | SText s => match text_to_int s with
               | Some z => z =? rowid
               | None => false
               end
  end.

(** Hand a statement to the handle: it is journalled, and throws when the
    store fails on it. *)
Definition issue (s : statement) : M unit :=
  fun w =>
    let w' := with_issued (issued w ++ [s]) w in
    if faulty (List.length (issued w)) then (w', None) else (w', Some tt).

Definition update_where (k : sqlval) (f : Task.t -> Task.t) : M unit :=
  fun w =>
    (with_tasks (map (fun t => if matches k (Task.id t) then f t else t)
                     (backup_tasks w)) w,
     Some tt).

(** [UPDATE backup_tasks SET status = 'RUNNING' WHERE id = ?]. *)
Definition update_running (k : sqlval) : M unit :=
  issue (UpdateRunning k) ;;; update_where k (set_status "RUNNING").

(** [UPDATE backup_tasks SET status = 'IDLE' WHERE id = ?]. *)
Definition update_idle (k : sqlval) : M unit :=
  issue (UpdateIdle k) ;;; update_where k (set_status "IDLE").

(** [UPDATE backup_tasks SET status = 'IDLE', last_run = CURRENT_TIMESTAMP
    WHERE id = ?]. *)
Definition update_idle_last_run (k : sqlval) : M unit :=
  issue (UpdateIdleLastRun k) ;;;
  fun w => update_where k (set_status_last_run "IDLE" (clock w)) w.

Definition has_task (tid : Z) (w : world) : bool :=
  existsb (fun t => Task.id t =? tid) (backup_tasks w).

(** [INSERT INTO backup_logs (task_id, status, message[, report])]: the row
    gets the next AUTOINCREMENT id and [CURRENT_TIMESTAMP]; under foreign-key
    enforcement the insert throws when no task has the id. *)
Definition insert_log (tid : Z) (st msg : string) (rep : option string) : M unit :=
  issue (InsertLog tid st msg rep) ;;;
  fun w =>
    if foreign_keys && negb (has_task tid w) then (w, None)
    else
      let i := seq_logs w + 1 in
      (with_logs (backup_logs w ++ [Log.mk i tid (clock w) st msg rep]) i w,
       Some tt).

(** [SELECT * FROM backup_tasks]. *)
Definition select_tasks : M (list Task.t) :=
  issue SelectTasks ;;; fun w => (w, Some (backup_tasks w)).

(** [SELECT * FROM backup_tasks WHERE id = ?], read with [.get]: the first
    row, or [undefined]. *)
Definition select_task (k : sqlval) : M (option Task.t) :=
  issue (SelectTask k) ;;;
  fun w => (w, Some (find (fun t => matches k (Task.id t)) (backup_tasks w))).

Definition referenced (k : sqlval) (w : world) : bool :=
  existsb (fun l => matches k (Log.task_id l) && has_task (Log.task_id l) w)
          (backup_logs w).

(** [DELETE FROM backup_tasks WHERE id = ?]: under foreign-key enforcement
    the statement throws, and deletes nothing, when a log row refers to a
    row it would delete. *)
Definition delete_task (k : sqlval) : M unit :=
  issue (DeleteTask k) ;;;
  fun w =>
    if foreign_keys && referenced k w then (w, None)
    else
      (with_tasks (filter (fun t => negb (matches k (Task.id t))) (backup_tasks w)) w,
       Some tt).

(** The rows of [backup_logs l JOIN backup_tasks t ON l.task_id = t.id], each
    log row with [t.name as task_name]. *)
Definition joined (w : world) : list (Log.t * string) :=
  flat_map (fun l =>
              map (fun t => (l, Task.name t))
                  (filter (fun t => Log.task_id l =? Task.id t) (backup_tasks w)))
           (backup_logs w).

(** [... ORDER BY l.timestamp DESC LIMIT 50]. *)
Definition select_logs : M (list (Log.t * string)) :=
  issue SelectLogs ;;; fun w => (w, Some (firstn 50 (order_by (joined w)))).

Definition is_some {A : Type} (o : option A) : bool :=
  match o with Some _ => true | None => false end.

(** [INSERT INTO backup_tasks (...) VALUES (?, ?, ?, ?, ?, ?, ?, ?)]: the
    five NOT NULL columns reject a NULL; [last_run] stays NULL and [status]
    takes its default. *)
Definition insert_task (n : new_task) : M Z :=
  issue InsertTask ;;;
  fun w =>
    match new_name n, new_source_path n, new_destination_path n,
          new_destination_type n, new_backup_type n with
    | Some nm, Some src, Some dst, Some dty, Some bty =>
        let i := seq_tasks w + 1 in
        (mkWorld (backup_tasks w ++
                    [Task.mk i nm src dst dty bty (new_schedule_days n)
                             (new_schedule_time n) None "IDLE"
                             (if new_email_notifications n then 1 else 0)])
                 (backup_logs w) i (seq_logs w) (clock w)
                 (pending w) (issued w) (invoked w),
         Some i)
    | _, _, _, _, _ => (w, None)
    end.

(** ** The execution engine: [runBackup], lines 95-150

    The [console.log] and [console.error] lines, among them the notification
    lines guarded by [task.email_notifications], write to the console only
    and are left out. *)

Definition run_status (success : bool) : string :=
  if success then "SUCESSO" else "FALHA".

Definition run_message (success : bool) (task : Task.t) : string :=
  if success
  then ("Backup concluído com sucesso para " ++ Task.destination_path task)%string
  else ("Falha ao acessar " ++ Task.destination_type task ++ " em "
          ++ Task.destination_path task)%string.

Definition start_message (task : Task.t) : string :=
  ("Processo de backup iniciado para " ++ Task.source_path task)%string.

(** The [catch] block, lines 144-149: the reset is tried, and what it throws
    is dropped. *)
Definition on_error (task : Task.t) : M unit :=
  try_catch (update_idle (SInt (Task.id task))) (ret tt).

Definition note_call (task : Task.t) : M unit :=
  fun w => (with_invoked (invoked w ++ [task]) w, Some tt).

(** [setTimeout(resolve, 4000)]: the run is parked with the instant of the
    call. *)
Definition arm_timer (task : Task.t) : M unit :=
  fun w => (with_pending (pending w ++ [(clock w, task)]) w, Some tt).

(** The [try] block up to the [await], lines 97-112. *)
Definition start_body (task : Task.t) : M bool :=
  update_running (SInt (Task.id task)) ;;;
  insert_log (Task.id task) "INICIADO" (start_message task) None ;;;
  arm_timer task ;;;
  ret true.

(** The part of [runBackup] that runs inside the call, up to the [await].
    [true]: the run is suspended on its timer; [false]: a statement threw
    and the [catch] block has run. *)
Definition runBackup_start (task : Task.t) : M bool :=
  note_call task ;;;
  try_catch (start_body task) (on_error task ;;; ret false).

(** The [try] block past the [await], lines 114-143, [success] being the
    draw [Math.random() > 0.1]. *)
Definition resume_body (success : bool) (task : Task.t) : M unit :=
  insert_log (Task.id task) (run_status success) (run_message success task)
             (Some (JSON_stringify (mockFiles success))) ;;;
  update_idle_last_run (SInt (Task.id task)).

(** The part that runs when the timer has fired. *)
Definition runBackup_resume (success : bool) (task : Task.t) : M unit :=
  try_catch (resume_body success task) (on_error task).

(** One call of [runBackup] followed to its end, [during] being all that the
    rest of the process and the clock do to the world while the run is
    suspended. *)
Definition runBackup (success : bool) (during : world -> world) (task : Task.t)
  : M unit :=
  fun w =>
    match runBackup_start task w with
    | (w1, Some true) => runBackup_resume success task (during w1)
    | (w1, _) => (w1, Some tt)
    end.

(** A computation throws in world [w]. *)
Definition threw {A : Type} (m : M A) (w : world) : bool :=
  negb (is_some (snd (m w))).

(** A statement of the run threw: one of the [try] block before the
    [await] or, when the run got that far, one of the block after it. *)
Definition run_threw (success : bool) (during : world -> world)
  (task : Task.t) (w : world) : bool :=
  if threw (start_body task) (fst (note_call task w)) then true
  else threw (resume_body success task)
             (during (fst (runBackup_start task w))).

(** The log rows a step appended: those of [after] past the length of
    [before]. *)
Definition appended (before after : world) : list Log.t :=
  skipn (List.length (backup_logs before)) (backup_logs after).

(** The log rows one call of [runBackup] appended, in the order it appended
    them: those of the part before the [await], then those of the part after
    it. *)
Definition run_appended (success : bool) (during : world -> world)
  (task : Task.t) (w : world) : list Log.t :=
  match runBackup_start task w with
  | (w1, Some true) =>
      appended w w1 ++
      appended (during w1) (fst (runBackup_resume success task (during w1)))
  | (w1, _) => appended w w1
  end.

(** ** The scheduler: the [cron.schedule] callback, lines 153-169 *)

(** [task.schedule_days || "[]"]: NULL and the empty text are falsy. *)
Definition days_text (task : Task.t) : string :=
  match Task.schedule_days task with
  | Some EmptyString | None => "[]"
  | Some s => s
  end.

(** The condition of line 162, [None] when [JSON.parse] or [includes]
    throws; [&&] evaluates [includes] first. *)
Definition is_due (day time : string) (task : Task.t) : option bool :=
  match JSON_parse (days_text task) with
  | None => None
  | Some days =>
      match includes days day with
      | None => None
      | Some b => Some (b && opt_eqb (Task.schedule_time task) time)
      end
  end.

(** The body of the [forEach] callback.  [runBackup] is an [async] function:
    the call returns a promise and throws nothing. *)
Definition evaluate (day time : string) (task : Task.t) : M unit :=
  match is_due day time task with
  | None => throw
  | Some true => runBackup_start task ;;; ret tt
  | Some false => ret tt
  end.

Fixpoint forEach {A : Type} (f : A -> M unit) (l : list A) : M unit :=
  match l with
  | [] => ret tt
  | a :: rest => f a ;;; forEach f rest
  end.

(** One tick, [day] and [time] being [toLocaleDateString] and [toTimeString]
    of the current instant. *)
Definition tick (day time : string) : M unit :=
  try_catch
    (tasks <- select_tasks ;; forEach (evaluate day time) tasks)
    (ret tt).

(** ** The routes, lines 181-243 *)

Definition get_tasks : M response :=
  try_catch
    (tasks <- select_tasks ;; ret (json_ok (BTasks tasks)))
    (ret (json_error 500 "Erro ao buscar tarefas")).

Definition post_task (n : new_task) : M response :=
  try_catch
    (i <- insert_task n ;; ret (json_ok (BId i)))
    (ret (json_error 500 "Erro ao criar tarefa")).

Definition delete_task_route (id_param : string) : M response :=
  try_catch
    (delete_task (SText id_param) ;;; ret (json_ok BSuccess))
    (ret (json_error 500 "Erro ao excluir tarefa")).

Definition get_logs : M response :=
  try_catch
    (logs <- select_logs ;; ret (json_ok (BLogs logs)))
    (ret (json_error 500 "Erro ao buscar logs")).

Definition run_task_route (id_param : string) : M response :=
  try_catch
    (task <- select_task (SText id_param) ;;
     match task with
     | Some t => runBackup_start t ;;; ret (json_ok BSuccess)
     | None => ret (json_error 404 "Tarefa não encontrada")
     end)
    (ret (json_error 500 "Erro ao disparar backup")).

(** ** The event loop

    What can happen to the world: a tick of the scheduler, a request on one
    of the routes, the oldest armed timer firing (all timers wait the same
    4000 ms, so they fire in the order they were armed), time passing. *)

Inductive event : Type :=
| Tick (day time : string)
| GetTasks
| PostTask (n : new_task)
| DeleteTaskById (id_param : string)
| GetLogs
| RunTask (id_param : string)
| TimerFires (success : bool)
| Elapse (seconds : nat).

Definition fire (success : bool) : M unit :=
  fun w =>
    match pending w with
    | (armed, task) :: rest =>
        if armed + 4 <=? clock w
        then runBackup_resume success task (with_pending rest w)
        else (w, Some tt)
    | [] => (w, Some tt)
    end.

Definition step (e : event) (w : world) : world :=
  match e with
  | Tick day time => fst (tick day time w)
  | GetTasks => fst (get_tasks w)
  | PostTask n => fst (post_task n w)
  | DeleteTaskById i => fst (delete_task_route i w)
  | GetLogs => fst (get_logs w)
  | RunTask i => fst (run_task_route i w)
  | TimerFires success => fst (fire success w)
  | Elapse s => with_clock (clock w + Z.of_nat s) w
  end.

Definition run_events (es : list event) (w : world) : world :=
  fold_left (fun v e => step e v) es w.

(** ** Notions the statements below are written with *)

(** The world in which a call of [runBackup] made in [w] reaches its
    [await], or ends if a statement threw before. *)
Definition at_await (task : Task.t) (w : world) : world :=
  fst (runBackup_start task w).

(** The calls of [runBackup] a tick makes. *)
Definition dispatched (day time : string) (w : world) : list Task.t :=
  skipn (List.length (invoked w)) (invoked (fst (tick day time w))).

(** The rows of task [tid]. *)
Definition rows_of (tid : Z) (w : world) : list Task.t :=
  filter (fun t => Task.id t =? tid) (backup_tasks w).

Definition is_started (l : Log.t) : Prop := Log.status l = "INICIADO".





(** The row line 101 inserts, and the row line 129 inserts, in world [w]. *)
Definition started_row (task : Task.t) (w : world) : Log.t :=
  Log.mk (seq_logs w + 1) (Task.id task) (clock w) "INICIADO"
         (start_message task) None.

Definition terminal_row (success : bool) (task : Task.t) (w : world) : Log.t :=
  Log.mk (seq_logs w + 1) (Task.id task) (clock w) (run_status success)
         (run_message success task) (Some (JSON_stringify (mockFiles success))).

(** Line 162 holds of the task and nothing throws. *)
Definition due (day time : string) (task : Task.t) : bool :=
  match is_due day time task with
  | Some b => b
  | None => false
  end.


(** What SQL asks of the sorter: the same rows, newest first. *)
Definition newest_first (a b : Log.t * string) : Prop :=
  Log.timestamp (fst b) <= Log.timestamp (fst a).

Definition sorter_ok : Prop :=
  forall l, Permutation (order_by l) l /\ Sorted newest_first (order_by l).

(** [w'] is [w] after some activity of the server: the clock and the
    AUTOINCREMENT counter of the logs have not gone back, and the log table
    and both journals have only grown at their ends. *)
Record extends (w w' : world) : Prop := mkExtends {
  ext_clock : clock w <= clock w';
  ext_seq_logs : seq_logs w <= seq_logs w';
  ext_logs : exists rows, backup_logs w' = backup_logs w ++ rows;
  ext_issued : exists ss, issued w' = issued w ++ ss;
  ext_invoked : exists ts, invoked w' = invoked w ++ ts
}.

(** A task whose [schedule_days] hold the empty array: no tick finds it
    due. *)
Definition never_due (t : Task.t) : Prop :=
  JSON_parse (days_text t) = Some (JArr []).

(** Task [tid] is stuck: it is on file, RUNNING and never due, no suspended
    run is one of its own, and its id has been handed out. *)
Record stuck (tid : Z) (w : world) : Prop := mkStuck {
  stuck_rows :
    Forall (fun t => Task.status t = "RUNNING" /\ never_due t) (rows_of tid w);
  stuck_stored : has_task tid w = true;
  stuck_pending : Forall (fun p => Task.id (snd p) <> tid) (pending w);
  stuck_seq : tid <= seq_tasks w
}.

(** The event is no request to run or to delete task [tid]. *)
Definition leaves_alone (tid : Z) (e : event) : Prop :=
  match e with
  | RunTask i | DeleteTaskById i => matches (SText i) tid = false
  | _ => True
  end.

(** The event is no request to run or to delete any task: a tick, a timer, a
    listing, a creation or the passing of time. *)
Definition no_run_no_delete (e : event) : Prop :=
  match e with
  | RunTask _ | DeleteTaskById _ => False
  | _ => True
  end.

(** Every log row belongs to a stored task. *)
Definition integrity (w : world) : Prop :=
  Forall (fun l => has_task (Log.task_id l) w = true) (backup_logs w).

(** A computation that maintains an invariant of the world, whether it
    returns or throws. *)
Definition maintains {A : Type} (I : world -> Prop) (m : M A) : Prop :=
  forall w, I w -> I (fst (m w)).

(** Task [tid] is on file and a log row bears its id. *)
Definition logged (tid : Z) (w : world) : Prop :=
  has_task tid w = true /\
  Exists (fun l => Log.task_id l = tid) (backup_logs w).

(** The event is no creation and no deletion of a task. *)
Definition engine_event (e : event) : Prop :=
  match e with
  | PostTask _ | DeleteTaskById _ => False
  | _ => True
  end.

(** An invariant that every write of the engine maintains: the statements
    of [runBackup], the journal of calls, the arming and the firing of a
    timer, the passing of time. *)
Record engine_invariant (I : world -> Prop) : Prop := mkEngineInvariant {
  inv_issue : forall s, maintains I (issue s);
  inv_running : forall k, maintains I (update_where k (set_status "RUNNING"));
  inv_idle : forall k, maintains I (update_where k (set_status "IDLE"));
  inv_idle_last_run :
    forall k c, maintains I (update_where k (set_status_last_run "IDLE" c));
  inv_started :
    forall task,
      maintains I (insert_log (Task.id task) "INICIADO" (start_message task) None);
  inv_terminal :
    forall success task,
      maintains I (insert_log (Task.id task) (run_status success)
                              (run_message success task)
                              (Some (JSON_stringify (mockFiles success))));
  inv_note : forall task, maintains I (note_call task);
  inv_arm : forall task, maintains I (arm_timer task);
  inv_pop : forall rest w, I w -> I (with_pending rest w);
  inv_elapse : forall c w, I w -> I (with_clock c w)
}.

(** A computation all of whose runs only extend the world. *)
Definition preserves {A : Type} (m : M A) : Prop :=
  forall w, extends w (fst (m w)).

(** * Properties *)

(** ** The world only grows *)

Lemma extends_refl (w : world) : extends w w.
Proof.
  constructor; try lia; exists []; now rewrite app_nil_r.
Qed.

Lemma extends_trans (a b c : world) : extends a b -> extends b c -> extends a c.
Proof.
  intros [c1 s1 [r1 l1] [i1 j1] [v1 k1]] [c2 s2 [r2 l2] [i2 j2] [v2 k2]].
  constructor; try lia.
  - exists (r1 ++ r2). now rewrite l2, l1, app_assoc.
  - exists (i1 ++ i2). now rewrite j2, j1, app_assoc.
  - exists (v1 ++ v2). now rewrite k2, k1, app_assoc.
Qed.

Lemma preserves_ret {A : Type} (a : A) : preserves (ret a).
Proof. intro w. apply extends_refl. Qed.

Lemma preserves_throw {A : Type} : preserves (@throw A).
Proof. intro w. apply extends_refl. Qed.

Lemma preserves_bind {A B : Type} (m : M A) (k : A -> M B) :
  preserves m -> (forall a, preserves (k a)) -> preserves (bind m k).
Proof.
  intros Hm Hk w. unfold bind. specialize (Hm w).
  destruct (m w) as [w' [a|]]; simpl in *; [|exact Hm].
  eapply extends_trans; [exact Hm | apply Hk].
Qed.

Lemma preserves_try_catch {A : Type} (body handler : M A) :
  preserves body -> preserves handler -> preserves (try_catch body handler).
Proof.
  intros Hb Hh w. unfold try_catch. specialize (Hb w).
  destruct (body w) as [w' [a|]]; simpl in *; [exact Hb|].
  eapply extends_trans; [exact Hb | apply Hh].
Qed.

Lemma preserves_issue (s : statement) : preserves (issue s).
Proof.
  intro w. unfold issue.
  destruct (faulty _); simpl; (constructor; simpl; try lia;
    [exists []; now rewrite app_nil_r | now exists [s]
    | exists []; now rewrite app_nil_r]).
Qed.

Lemma preserves_update_where (k : sqlval) (f : Task.t -> Task.t) :
  preserves (update_where k f).
Proof.
  intro w. constructor; simpl; try lia; exists []; now rewrite app_nil_r.
Qed.

Lemma preserves_insert_log (tid : Z) (st msg : string) (rep : option string) :
  preserves (insert_log tid st msg rep).
Proof.
  apply preserves_bind; [apply preserves_issue|]. intros _ w.
  destruct (foreign_keys && negb (has_task tid w)); simpl.
  - apply extends_refl.
  - constructor; simpl; try lia;
      [eexists; reflexivity | exists []; now rewrite app_nil_r ..].
Qed.

Lemma preserves_delete_task (k : sqlval) : preserves (delete_task k).
Proof.
  apply preserves_bind; [apply preserves_issue|]. intros _ w.
  destruct (foreign_keys && referenced k w); simpl.
  - apply extends_refl.
  - constructor; simpl; try lia; exists []; now rewrite app_nil_r.
Qed.

Lemma preserves_insert_task (n : new_task) : preserves (insert_task n).
Proof.
  apply preserves_bind; [apply preserves_issue|]. intros _ w.
  destruct n as [[a|] [b|] [c|] [d|] [e|] f g h]; simpl;
    try apply extends_refl.
  constructor; simpl; try lia; exists []; now rewrite app_nil_r.
Qed.

Lemma preserves_select_tasks : preserves select_tasks.
Proof.
  apply preserves_bind; [apply preserves_issue|]. intros _ w. apply extends_refl.
Qed.

Lemma preserves_select_task (k : sqlval) : preserves (select_task k).
Proof.
  apply preserves_bind; [apply preserves_issue|]. intros _ w. apply extends_refl.
Qed.

Lemma preserves_select_logs : preserves select_logs.
Proof.
  apply preserves_bind; [apply preserves_issue|]. intros _ w. apply extends_refl.
Qed.

Lemma preserves_update_running (k : sqlval) : preserves (update_running k).
Proof.
  apply preserves_bind; [apply preserves_issue|]. intros _.
  apply preserves_update_where.
Qed.

Lemma preserves_update_idle (k : sqlval) : preserves (update_idle k).
Proof.
  apply preserves_bind; [apply preserves_issue|]. intros _.
  apply preserves_update_where.
Qed.

Lemma preserves_update_idle_last_run (k : sqlval) :
  preserves (update_idle_last_run k).
Proof.
  apply preserves_bind; [apply preserves_issue|]. intros _ w.
  apply preserves_update_where.
Qed.

Lemma preserves_note_call (task : Task.t) : preserves (note_call task).
Proof.
  intro w. constructor; simpl; try lia;
    [exists []; now rewrite app_nil_r .. | now exists [task]].
Qed.

Lemma preserves_arm_timer (task : Task.t) : preserves (arm_timer task).
Proof.
  intro w. constructor; simpl; try lia; exists []; now rewrite app_nil_r.
Qed.

Create HintDb grows.
#[local] Hint Resolve preserves_ret preserves_throw preserves_issue
  preserves_update_where preserves_insert_log preserves_delete_task
  preserves_insert_task preserves_select_tasks preserves_select_task
  preserves_select_logs preserves_update_running preserves_update_idle
  preserves_update_idle_last_run preserves_note_call preserves_arm_timer
  : grows.

Ltac grows :=
  repeat lazymatch goal with
    | |- preserves (bind _ _) => apply preserves_bind; [|intro]
    | |- preserves (try_catch _ _) => apply preserves_try_catch
    | |- preserves _ => solve [auto with grows]
    end.

Lemma preserves_on_error (task : Task.t) : preserves (on_error task).
Proof. unfold on_error. grows. Qed.

Lemma preserves_runBackup_start (task : Task.t) :
  preserves (runBackup_start task).
Proof.
  unfold runBackup_start, start_body. pose proof preserves_on_error. grows.
Qed.

Lemma preserves_runBackup_resume (success : bool) (task : Task.t) :
  preserves (runBackup_resume success task).
Proof.
  unfold runBackup_resume, resume_body. pose proof preserves_on_error. grows.
Qed.

Lemma preserves_forEach {A : Type} (f : A -> M unit) (l : list A) :
  (forall a, preserves (f a)) -> preserves (forEach f l).
Proof.
  intro Hf. induction l as [|a l IH]; simpl; [apply preserves_ret|].
  apply preserves_bind; [apply Hf | intros _; exact IH].
Qed.

Lemma preserves_evaluate (day time : string) (task : Task.t) :
  preserves (evaluate day time task).
Proof.
  unfold evaluate. pose proof preserves_runBackup_start.
  destruct (is_due day time task) as [[|]|]; grows.
Qed.

Lemma preserves_tick (day time : string) : preserves (tick day time).
Proof.
  unfold tick. apply preserves_try_catch; [|apply preserves_ret].
  apply preserves_bind; [apply preserves_select_tasks|]. intro tasks.
  apply preserves_forEach. apply preserves_evaluate.
Qed.

Lemma preserves_run_task_route (i : string) : preserves (run_task_route i).
Proof.
  unfold run_task_route. pose proof preserves_runBackup_start.
  apply preserves_try_catch; [|apply preserves_ret].
  apply preserves_bind; [apply preserves_select_task|].
  intros [t|]; grows.
Qed.

Lemma preserves_fire (success : bool) : preserves (fire success).
Proof.
  intro w. unfold fire. destruct (pending w) as [|[armed task] rest];
    [apply extends_refl|].
  destruct (armed + 4 <=? clock w); [|apply extends_refl].
  eapply extends_trans; [|apply preserves_runBackup_resume].
  constructor; simpl; try lia; exists []; now rewrite app_nil_r.
Qed.

Lemma preserves_get_tasks : preserves get_tasks.
Proof. unfold get_tasks. grows. Qed.

Lemma preserves_post_task (n : new_task) : preserves (post_task n).
Proof. unfold post_task. grows. Qed.

Lemma preserves_delete_task_route (i : string) : preserves (delete_task_route i).
Proof. unfold delete_task_route. grows. Qed.

Lemma preserves_get_logs : preserves get_logs.
Proof. unfold get_logs. grows. Qed.

(** Whatever happens, in whatever order, the log table is only appended to,
    log ids only grow and the clock does not go back. *)
Lemma step_extends (e : event) (w : world) : extends w (step e w).
Proof.
  destruct e; simpl.
  - apply preserves_tick.
  - apply preserves_get_tasks.
  - apply preserves_post_task.
  - apply preserves_delete_task_route.
  - apply preserves_get_logs.
  - apply preserves_run_task_route.
  - apply preserves_fire.
  - constructor; simpl; try lia; exists []; now rewrite app_nil_r.
Qed.

(** X14.  The log table is append-only: whatever happens, in whatever
    order and however the store fails, the rows there were are still there,
    unchanged and in place, with new rows only after them; the id counter of
    the logs and the clock never go back. *)
Lemma run_events_extends (es : list event) (w : world) :
  extends w (run_events es w).
Proof.
  revert w. induction es as [|e es IH]; intro w; simpl.
  - apply extends_refl.
  - eapply extends_trans; [apply step_extends | apply IH].
Qed.

(** ** How a run unfolds *)

Lemma skipn_exact {A : Type} (l r : list A) : skipn (List.length l) (l ++ r) = r.
Proof. induction l as [|a l IH]; simpl; [reflexivity | exact IH]. Qed.

Lemma appended_app (w w' : world) (rows : list Log.t) :
  backup_logs w' = backup_logs w ++ rows -> appended w w' = rows.
Proof. intro H. unfold appended. rewrite H. apply skipn_exact. Qed.

Lemma appended_same (w w' : world) :
  backup_logs w' = backup_logs w -> appended w w' = [].
Proof.
  intro H. apply appended_app. now rewrite H, app_nil_r.
Qed.

Lemma existsb_map_id (tid : Z) (g : Task.t -> Task.t) (l : list Task.t) :
  (forall t, Task.id (g t) = Task.id t) ->
  existsb (fun t => Task.id t =? tid) (map g l)
  = existsb (fun t => Task.id t =? tid) l.
Proof.
  intro Hg. induction l as [|a l IH]; simpl; [reflexivity|].
  now rewrite Hg, IH.
Qed.

Lemma has_task_update (tid : Z) (k : sqlval) (f : Task.t -> Task.t) (w : world) :
  (forall t, Task.id (f t) = Task.id t) ->
  has_task tid (fst (update_where k f w)) = has_task tid w.
Proof.
  intro Hf. unfold has_task, update_where. simpl.
  apply existsb_map_id. intro t. destruct (matches k (Task.id t)); auto.
Qed.

(** The rows of a task after an UPDATE that names it by its number. *)
Lemma rows_of_update (tid : Z) (f : Task.t -> Task.t) (l : list Task.t) :
  (forall t, Task.id (f t) = Task.id t) ->
  filter (fun t => Task.id t =? tid)
         (map (fun t => if matches (SInt tid) (Task.id t) then f t else t) l)
  = map f (filter (fun t => Task.id t =? tid) l).
Proof.
  intro Hf. induction l as [|a l IH]; [reflexivity|].
  cbn [map filter matches]. cbn [matches] in IH.
  destruct (Z.eqb_spec tid (Task.id a)) as [E|E].
  - rewrite Hf, <- E, Z.eqb_refl. cbn [map]. now rewrite IH.
  - destruct (Z.eqb_spec (Task.id a) tid) as [E'|E']; [congruence|]. exact IH.
Qed.

Lemma has_task_rows (tid : Z) (w : world) :
  has_task tid w = true <-> rows_of tid w <> [].
Proof.
  unfold has_task, rows_of. induction (backup_tasks w) as [|a l IH]; simpl.
  - split; [discriminate | congruence].
  - destruct (Task.id a =? tid); simpl; [split; [discriminate | reflexivity]|].
    exact IH.
Qed.

(** When no statement before the [await] throws, the call reaches it: the
    task is RUNNING, one INICIADO row is appended and the timer is armed. *)
Lemma runBackup_start_returned (task : Task.t) (w : world) :
  threw (start_body task) (fst (note_call task w)) = false ->
  runBackup_start task w =
    (mkWorld
       (map (fun t => if matches (SInt (Task.id task)) (Task.id t)
                      then set_status "RUNNING" t else t) (backup_tasks w))
       (backup_logs w ++ [started_row task w])
       (seq_tasks w) (seq_logs w + 1) (clock w)
       (pending w ++ [(clock w, task)])
       (issued w ++ [UpdateRunning (SInt (Task.id task))]
                 ++ [InsertLog (Task.id task) "INICIADO" (start_message task) None])
       (invoked w ++ [task]),
     Some true).
Proof.
  unfold threw, runBackup_start, start_body, update_running, insert_log, issue,
    note_call, arm_timer, update_where, bind, try_catch, ret, started_row.
  cbn. destruct (faulty (List.length (issued w))); cbn; [discriminate|].
  destruct (faulty _); cbn; [discriminate|].
  destruct (foreign_keys && _); cbn; [discriminate|]. intros _.
  unfold with_pending, with_logs, with_tasks, with_issued, with_invoked. cbn.
  now rewrite <- app_assoc.
Qed.

(** When no statement after the [await] throws, the terminal row is
    appended and the task is reset with its [last_run]. *)
Lemma runBackup_resume_returned (success : bool) (task : Task.t) (w : world) :
  threw (resume_body success task) w = false ->
  runBackup_resume success task w =
    (mkWorld
       (map (fun t => if matches (SInt (Task.id task)) (Task.id t)
                      then set_status_last_run "IDLE" (clock w) t else t)
            (backup_tasks w))
       (backup_logs w ++ [terminal_row success task w])
       (seq_tasks w) (seq_logs w + 1) (clock w) (pending w)
       (issued w ++ [InsertLog (Task.id task) (run_status success)
                               (run_message success task)
                               (Some (JSON_stringify (mockFiles success)))]
                 ++ [UpdateIdleLastRun (SInt (Task.id task))])
       (invoked w),
     Some tt).
Proof.
  unfold threw, runBackup_resume, resume_body, update_idle_last_run, insert_log,
    issue, update_where, bind, try_catch, ret, terminal_row.
  cbn. destruct (faulty (List.length (issued w))); cbn; [discriminate|].
  destruct (foreign_keys && _); cbn; [discriminate|].
  destruct (faulty _); cbn; [discriminate|]. intros _.
  unfold with_logs, with_tasks, with_issued. cbn.
  now rewrite <- app_assoc.
Qed.

(** A run on which no statement threw has been through both halves. *)
Lemma run_threw_false (success : bool) (during : world -> world)
  (task : Task.t) (w : world) :
  run_threw success during task w = false ->
  threw (start_body task) (fst (note_call task w)) = false /\
  threw (resume_body success task) (during (at_await task w)) = false.
Proof.
  unfold run_threw, at_await.
  destruct (threw (start_body task) (fst (note_call task w)));
    [discriminate | auto].
Qed.

(** ** The lifecycle of a run *)

(** C1.  After a completed call of [runBackup] on which no statement threw,
    whether the draw was a success or a failure, every row of the task has
    status IDLE and a [last_run] written at or after the instant of the
    call.  The task is still on file when the timer fires and the clock has
    not gone back meanwhile; [during] is anything else. *)
Theorem runBackup_leaves_idle (success : bool) (during : world -> world)
  (task : Task.t) (w : world) :
  run_threw success during task w = false ->
  has_task (Task.id task) (during (at_await task w)) = true ->
  clock w <= clock (during (at_await task w)) ->
  snd (runBackup success during task w) = Some tt /\
  rows_of (Task.id task) (fst (runBackup success during task w)) <> [] /\
  Forall (fun t => Task.status t = "IDLE" /\
                   exists ts, Task.last_run t = Some ts /\ clock w <= ts)
         (rows_of (Task.id task) (fst (runBackup success during task w))).
Proof.
  intros Hr Hd Hc. destruct (run_threw_false _ _ _ _ Hr) as [Hs Ht].
  unfold runBackup, at_await in *.
  rewrite (runBackup_start_returned task w Hs) in *. cbn [fst] in *.
  rewrite (runBackup_resume_returned success task _ Ht). cbn [fst snd].
  apply has_task_rows in Hd. unfold rows_of in *. cbn [backup_tasks].
  rewrite rows_of_update by reflexivity.
  split; [reflexivity|]. split.
  - intro E. apply map_eq_nil in E. contradiction.
  - apply Forall_forall. intros t Hin. apply in_map_iff in Hin.
    destruct Hin as [t0 [<- _]]. cbn. split; [reflexivity|].
    eexists. split; [reflexivity | exact Hc].
Qed.

Ltac unfold_run :=
  unfold runBackup_start, runBackup_resume, start_body, resume_body,
    on_error, update_running, update_idle, update_idle_last_run, insert_log,
    issue, note_call, arm_timer, update_where, bind, try_catch, ret; cbn.

Ltac split_ifs :=
  repeat match goal with
         | |- context [if ?c then _ else _] => destruct c eqn:?; cbn
         end.

(** Whatever the store does, the part before the [await] either reaches it
    having appended exactly the INICIADO row, or ends in the [catch] block
    having appended nothing. *)
Lemma runBackup_start_shape (task : Task.t) (w : world) :
  (snd (runBackup_start task w) = Some true /\
   backup_logs (at_await task w) = backup_logs w ++ [started_row task w] /\
   seq_logs (at_await task w) = seq_logs w + 1)
  \/
  (snd (runBackup_start task w) = Some false /\
   backup_logs (at_await task w) = backup_logs w).
Proof.
  unfold at_await, started_row. unfold_run. split_ifs; auto.
Qed.

(** The part after the [await] appends the terminal row or nothing, and
    throws nothing. *)
Lemma runBackup_resume_shape (success : bool) (task : Task.t) (w : world) :
  snd (runBackup_resume success task w) = Some tt /\
  (backup_logs (fst (runBackup_resume success task w))
     = backup_logs w ++ [terminal_row success task w]
   \/ backup_logs (fst (runBackup_resume success task w)) = backup_logs w).
Proof.
  unfold terminal_row. unfold_run. split_ifs; auto.
Qed.



(** ** The cleanup path *)

(** The [catch] block issues the reset as its one statement and throws
    nothing; unless the reset itself fails, every row of the task is IDLE
    after it. *)
Lemma on_error_spec (task : Task.t) (w : world) :
  snd (on_error task w) = Some tt /\
  issued (fst (on_error task w)) = issued w ++ [UpdateIdle (SInt (Task.id task))] /\
  (faulty (List.length (issued w)) = false ->
   Forall (fun t => Task.status t = "IDLE")
          (rows_of (Task.id task) (fst (on_error task w)))).
Proof.
  unfold on_error, update_idle, issue, update_where, bind, try_catch, ret,
    rows_of. cbn.
  destruct (faulty (List.length (issued w))); cbn.
  - repeat split. discriminate.
  - repeat split. intros _. rewrite rows_of_update by reflexivity.
    apply Forall_forall. intros t Ht. apply in_map_iff in Ht.
    now destruct Ht as [t0 [<- _]].
Qed.

Lemma try_catch_threw {A : Type} (body handler : M A) (w : world) :
  threw body w = true ->
  try_catch body handler w = handler (fst (body w)).
Proof.
  unfold threw, try_catch. destruct (body w) as [w' [a|]]; cbn;
    [discriminate | reflexivity].
Qed.

Lemma try_catch_returned {A : Type} (body handler : M A) (w : world) :
  threw body w = false ->
  try_catch body handler w = body w.
Proof.
  unfold threw, try_catch. destruct (body w) as [w' [a|]]; cbn;
    [reflexivity | discriminate].
Qed.

Lemma start_body_returns (task : Task.t) (w : world) :
  threw (start_body task) w = false -> snd (start_body task w) = Some true.
Proof.
  unfold threw, start_body, update_running, insert_log, issue, arm_timer,
    update_where, bind, ret. cbn. split_ifs; auto; discriminate.
Qed.

Lemma runBackup_start_eq (task : Task.t) (w : world) :
  runBackup_start task w
  = try_catch (start_body task) (on_error task ;;; ret false)
              (fst (note_call task w)).
Proof. reflexivity. Qed.

(** When the reset itself fails, the [catch] block changes neither the task
    table nor the armed timers. *)
Lemma on_error_dropped (task : Task.t) (w : world) :
  faulty (List.length (issued w)) = true ->
  backup_tasks (fst (on_error task w)) = backup_tasks w /\
  pending (fst (on_error task w)) = pending w.
Proof.
  intro H. unfold on_error, update_idle, issue, update_where, bind, try_catch,
    ret. rewrite H. cbn. auto.
Qed.

(** Where the part before the [await] can throw: at the UPDATE to RUNNING,
    with the task table untouched, or at the INSERT of the INICIADO row, with
    the task RUNNING; either way no timer has been armed. *)
Lemma start_body_threw (task : Task.t) (w : world) :
  threw (start_body task) w = true ->
  pending (fst (start_body task w)) = pending w /\
  (faulty (List.length (issued w)) = true ->
   backup_tasks (fst (start_body task w)) = backup_tasks w) /\
  (faulty (List.length (issued w)) = false ->
   backup_tasks (fst (start_body task w))
   = map (fun t => if matches (SInt (Task.id task)) (Task.id t)
                   then set_status "RUNNING" t else t) (backup_tasks w)).
Proof.
  unfold threw, start_body, update_running, insert_log, issue, arm_timer,
    update_where, bind, ret. cbn.
  destruct (faulty (List.length (issued w))); cbn.
  - intros _. repeat split. discriminate.
  - destruct (faulty _); cbn; [intros _; repeat split; discriminate|].
    destruct (foreign_keys && _); cbn; [|discriminate].
    intros _. repeat split. discriminate.
Qed.

(** The part after the [await] throws before it has written to the task
    table. *)
Lemma resume_body_threw (success : bool) (task : Task.t) (w : world) :
  threw (resume_body success task) w = true ->
  backup_tasks (fst (resume_body success task w)) = backup_tasks w.
Proof.
  unfold threw, resume_body, update_idle_last_run, insert_log, issue,
    update_where, bind, ret. cbn.
  destruct (faulty (List.length (issued w))); cbn; [reflexivity|].
  destruct (foreign_keys && _); cbn; [reflexivity|].
  destruct (faulty _); cbn; [reflexivity | discriminate].
Qed.

(** C5, as amended.  When a statement of a run throws, the run still ends
    without throwing and the last statement it issued is the reset of the
    task to IDLE.  If that reset goes through, every row of the task is IDLE
    when the run ends.  If the reset throws too, its error is dropped and the
    task table is left as the statement that threw first found it: when that
    was the INSERT of the INICIADO row, the task is RUNNING at the end of the
    run and no timer is armed for it; when it was the UPDATE to RUNNING, the
    task table is as before the run; when it was a statement after the
    [await], the task table is as it was when the timer fired. *)
Theorem runBackup_resets_on_error (success : bool) (during : world -> world)
  (task : Task.t) (w : world) :
  run_threw success during task w = true ->
  snd (runBackup success during task w) = Some tt /\
  exists before,
    issued (fst (runBackup success during task w))
      = before ++ [UpdateIdle (SInt (Task.id task))] /\
    (faulty (List.length before) = false ->
     Forall (fun t => Task.status t = "IDLE")
            (rows_of (Task.id task) (fst (runBackup success during task w)))) /\
    (faulty (List.length before) = true ->
     (threw (start_body task) (fst (note_call task w)) = true ->
      pending (fst (runBackup success during task w)) = pending w /\
      (faulty (List.length (issued w)) = true ->
       backup_tasks (fst (runBackup success during task w)) = backup_tasks w) /\
      (faulty (List.length (issued w)) = false ->
       Forall (fun t => Task.status t = "RUNNING")
              (rows_of (Task.id task)
                       (fst (runBackup success during task w))))) /\
     (threw (start_body task) (fst (note_call task w)) = false ->
      backup_tasks (fst (runBackup success during task w))
      = backup_tasks (during (at_await task w)))).
Proof.
  unfold run_threw, runBackup, at_await. rewrite runBackup_start_eq.
  set (w0 := fst (note_call task w)).
  destruct (threw (start_body task) w0) eqn:Hs.
  - intros _. rewrite (try_catch_threw _ _ _ Hs). unfold bind.
    destruct (on_error_spec task (fst (start_body task w0))) as [Hr [Hi Hq]].
    pose proof (on_error_dropped task (fst (start_body task w0))) as Hd.
    destruct (start_body_threw task w0 Hs) as [Hp [Ht Hu]].
    destruct (on_error task (fst (start_body task w0))) as [w1 r].
    cbn [fst snd] in *. subst r. cbn. split; [reflexivity|].
    exists (issued (fst (start_body task w0))).
    split; [exact Hi|]. split; [exact Hq|].
    intro Hf. destruct (Hd Hf) as [Hd1 Hd2]. split; [|discriminate].
    intros _. split; [now rewrite Hd2, Hp|]. split.
    + intro Hw. rewrite Hd1. now apply Ht.
    + intro Hw. unfold rows_of. rewrite Hd1, (Hu Hw).
      subst w0. cbn [note_call fst backup_tasks with_invoked].
      rewrite rows_of_update by reflexivity.
      apply Forall_forall. intros t Hin. apply in_map_iff in Hin.
      now destruct Hin as [t0 [<- _]].
  - rewrite (try_catch_returned _ _ _ Hs).
    pose proof (start_body_returns task w0 Hs) as Hr.
    destruct (start_body task w0) as [w1 r]. cbn [fst snd] in *. subst r.
    intro Ht. unfold runBackup_resume. rewrite (try_catch_threw _ _ _ Ht).
    destruct (on_error_spec task (fst (resume_body success task (during w1))))
      as [Hr [Hi Hq]].
    split; [exact Hr|].
    exists (issued (fst (resume_body success task (during w1)))).
    split; [exact Hi|]. split; [exact Hq|].
    intro Hf. split; [discriminate|]. intros _.
    destruct (on_error_dropped task _ Hf) as [Hd1 _]. rewrite Hd1.
    now apply resume_body_threw.
Qed.

(** ** The report *)

(** The log table after the part of a run past the [await]: the terminal row
    is appended unless its INSERT throws. *)
Lemma runBackup_resume_logs (success : bool) (task : Task.t) (w : world) :
  backup_logs (fst (runBackup_resume success task w)) =
    if faulty (List.length (issued w)) then backup_logs w
    else if foreign_keys && negb (has_task (Task.id task) w) then backup_logs w
    else backup_logs w ++ [terminal_row success task w].
Proof.
  unfold terminal_row, has_task. unfold_run. split_ifs; reflexivity.
Qed.

(** C8.  When the INSERT of line 129 goes through (the store does not fail
    on it and the task is still on file), the part of a run past the [await]
    appends exactly one row: it bears the task's id, the status of the drawn
    outcome and, as its report, the JSON text of [mockFiles] of that outcome;
    when that INSERT throws no row and no report is written.  A run on which
    no statement throws appends the INICIADO row, without a report, and then
    that terminal row.  The two report texts are spelled out.  The report is
    a sequence of four entries, each OK or ERRO; a failed run has an ERRO
    entry and a successful run has none. *)
Theorem report_of_run (success : bool) (task : Task.t) (w : world) :
  (faulty (List.length (issued w)) = false ->
   (foreign_keys = true -> has_task (Task.id task) w = true) ->
   exists l,
     appended w (fst (runBackup_resume success task w)) = [l] /\
     Log.task_id l = Task.id task /\
     Log.status l = run_status success /\
     Log.report l = Some (JSON_stringify (mockFiles success))) /\
  (faulty (List.length (issued w)) = true \/
   (foreign_keys = true /\ has_task (Task.id task) w = false) ->
   appended w (fst (runBackup_resume success task w)) = []) /\
  (forall during,
     run_threw success during task w = false ->
     exists s l,
       run_appended success during task w = [s; l] /\
       is_started s /\ Log.report s = None /\
       Log.status l = run_status success /\
       Log.report l = Some (JSON_stringify (mockFiles success))) /\
  JSON_stringify (mockFiles true)
  = requote "[{'name':'documento_v1.pdf','size':'2.4MB','status':'OK'},{'name':'planilha_financeira.xlsx','size':'1.1MB','status':'OK'},{'name':'foto_backup.jpg','size':'4.8MB','status':'OK'},{'name':'projeto_final.zip','size':'156MB','status':'OK'}]" /\
  JSON_stringify (mockFiles false)
  = requote "[{'name':'documento_v1.pdf','size':'2.4MB','status':'OK'},{'name':'planilha_financeira.xlsx','size':'1.1MB','status':'OK'},{'name':'foto_backup.jpg','size':'4.8MB','status':'ERRO'},{'name':'projeto_final.zip','size':'156MB','status':'ERRO'}]" /\
  Forall (fun l => Log.status l = run_status success /\
                   Log.report l = Some (JSON_stringify (mockFiles success)))
         (appended w (fst (runBackup_resume success task w))) /\
  Forall (fun l => is_started l /\ Log.report l = None)
         (appended w (at_await task w)) /\
  List.length (mockFiles success) = 4%nat /\
  Forall (fun f => file_status f = "OK" \/ file_status f = "ERRO")
         (mockFiles success) /\
  (success = false ->
   Exists (fun f => file_status f = "ERRO") (mockFiles success)) /\
  (success = true ->
   Forall (fun f => file_status f <> "ERRO") (mockFiles success)).
Proof.
  split; [|split; [|split; [|split; [|split;
    [|split; [|split; [|split; [|split; [|split]]]]]]]]].
  - intros Hf Hfk. eexists. split.
    + apply appended_app. rewrite runBackup_resume_logs, Hf.
      destruct foreign_keys; [rewrite Hfk by reflexivity|]; reflexivity.
    + repeat split.
  - intros H. apply appended_same. rewrite runBackup_resume_logs.
    destruct H as [H|[H1 H2]]; [now rewrite H|].
    rewrite H1, H2. now destruct (faulty _).
  - intros during Hr. destruct (run_threw_false _ _ _ _ Hr) as [Hs Ht].
    unfold run_appended, at_await in *.
    rewrite (runBackup_start_returned task w Hs) in *. cbn [fst] in *.
    rewrite (runBackup_resume_returned success task _ Ht). cbn [fst].
    erewrite (appended_app w) by reflexivity.
    erewrite appended_app by reflexivity.
    eexists. eexists. split; [reflexivity|]. repeat split.
  - reflexivity.
  - reflexivity.
  - destruct (runBackup_resume_shape success task w) as [_ [H|H]].
    + rewrite (appended_app _ _ _ H). repeat constructor.
    + rewrite (appended_same _ _ H). constructor.
  - destruct (runBackup_start_shape task w) as [[_ [H _]]|[_ H]].
    + rewrite (appended_app _ _ _ H). repeat constructor.
    + rewrite (appended_same _ _ H). constructor.
  - reflexivity.
  - destruct success; repeat (apply Forall_cons; [cbn; auto|]);
      apply Forall_nil.
  - intros ->. apply Exists_cons_tl, Exists_cons_tl, Exists_cons_hd.
    reflexivity.
  - intros ->. repeat constructor; cbn; discriminate.
Qed.

(** ** The scheduler *)

(** A call of [runBackup] throws nothing to its caller and is journalled. *)
Lemma runBackup_start_invoked (task : Task.t) (w : world) :
  (exists b, snd (runBackup_start task w) = Some b) /\
  invoked (fst (runBackup_start task w)) = invoked w ++ [task].
Proof.
  unfold_run. split_ifs; split; eauto.
Qed.

Lemma evaluate_invoked (day time : string) (task : Task.t) (w : world) :
  is_due day time task <> None ->
  snd (evaluate day time task w) = Some tt /\
  invoked (fst (evaluate day time task w))
    = invoked w ++ (if due day time task then [task] else []).
Proof.
  unfold evaluate, due. intro H.
  destruct (is_due day time task) as [[|]|]; [| |congruence].
  - destruct (runBackup_start_invoked task w) as [[b Hb] Hi].
    unfold bind. destruct (runBackup_start task w) as [w1 r].
    cbn in *. subst r. split; [reflexivity | exact Hi].
  - cbn. split; [reflexivity | now rewrite app_nil_r].
Qed.

Lemma evaluate_throws (day time : string) (task : Task.t) (w : world) :
  is_due day time task = None -> evaluate day time task w = (w, None).
Proof. unfold evaluate. now intros ->. Qed.


(** The loop stops at the first task on which line 161 or 162 throws: the
    tasks after it are not looked at. *)
Lemma forEach_evaluate_stops (day time : string) (pre post : list Task.t)
  (bad : Task.t) :
  (forall t, In t pre -> is_due day time t <> None) ->
  is_due day time bad = None ->
  forall w,
    snd (forEach (evaluate day time) (pre ++ bad :: post) w) = None /\
    invoked (fst (forEach (evaluate day time) (pre ++ bad :: post) w))
      = invoked w ++ filter (due day time) pre.
Proof.
  induction pre as [|a l IH]; intros Hd Hb w.
  - cbn [app forEach filter]. unfold bind.
    rewrite (evaluate_throws _ _ _ _ Hb). cbn.
    split; [reflexivity | now rewrite app_nil_r].
  - cbn [app forEach filter]. unfold bind.
    destruct (evaluate_invoked day time a w) as [Hr Hi];
      [apply Hd; now left|].
    destruct (evaluate day time a w) as [w1 r]. cbn [fst snd] in *. subst r.
    destruct (IH (fun t Ht => Hd t (or_intror Ht)) Hb w1) as [Hr' Hi'].
    split; [exact Hr'|]. rewrite Hi', Hi, <- app_assoc.
    now destruct (due day time a).
Qed.

Lemma select_tasks_healthy (w : world) :
  faulty (List.length (issued w)) = false ->
  select_tasks w = (with_issued (issued w ++ [SelectTasks]) w, Some (backup_tasks w)).
Proof.
  intro H. unfold select_tasks, issue, bind. now rewrite H.
Qed.

Lemma select_tasks_faulty (w : world) :
  faulty (List.length (issued w)) = true ->
  select_tasks w = (with_issued (issued w ++ [SelectTasks]) w, None).
Proof.
  intro H. unfold select_tasks, issue, bind. now rewrite H.
Qed.









(** C4, as amended.  A tick throws nothing.  When the read of the task table
    fails, no task is dispatched and both tables are left as they were.
    When a task's [schedule_days] make line 161 or 162 throw, the tasks
    stored before it have been evaluated, and dispatched if due; that task
    and every task stored after it are not dispatched at this tick. *)
Theorem tick_stops_at_first_error (day time : string) (w : world) :
  snd (tick day time w) = Some tt /\
  (faulty (List.length (issued w)) = true ->
   dispatched day time w = [] /\
   backup_tasks (fst (tick day time w)) = backup_tasks w /\
   backup_logs (fst (tick day time w)) = backup_logs w) /\
  (faulty (List.length (issued w)) = false ->
   forall pre bad post,
     backup_tasks w = pre ++ bad :: post ->
     (forall t, In t pre -> is_due day time t <> None) ->
     is_due day time bad = None ->
     dispatched day time w = filter (due day time) pre /\
     forall t, In t (dispatched day time w) -> In t pre).
Proof.
  split; [|split].
  - unfold tick, try_catch.
    destruct ((tasks <- select_tasks;; forEach (evaluate day time) tasks) w)
      as [w1 [[]|]]; reflexivity.
  - intro Hf. unfold dispatched, tick, try_catch, bind.
    rewrite (select_tasks_faulty w Hf). cbn.
    repeat split. rewrite <- (app_nil_r (invoked w)) at 2. apply skipn_exact.
  - intros Hf pre bad post Hw Hpre Hbad.
    unfold dispatched, tick, try_catch, bind.
    rewrite (select_tasks_healthy w Hf), Hw.
    destruct (forEach_evaluate_stops day time pre post bad Hpre Hbad
                (with_issued (issued w ++ [SelectTasks]) w)) as [Hr Hi].
    destruct (forEach (evaluate day time) (pre ++ bad :: post) _) as [w1 r].
    cbn [fst snd] in *. subst r. cbn [fst ret]. rewrite Hi. cbn [invoked with_issued].
    rewrite skipn_exact. split; [reflexivity|].
    intros t Ht. apply filter_In in Ht. exact (proj1 Ht).
Qed.

(** ** The routes *)

Local Arguments matches : simpl never.

Lemma find_unknown (k : sqlval) (l : list Task.t) :
  (forall t, In t l -> matches k (Task.id t) = false) ->
  find (fun t => matches k (Task.id t)) l = None.
Proof.
  intro H. induction l as [|a l IH]; [reflexivity|]. cbn.
  rewrite (H a) by now left. apply IH. intros t Ht. apply H. now right.
Qed.

Lemma filter_unknown (k : sqlval) (l : list Task.t) :
  (forall t, In t l -> matches k (Task.id t) = false) ->
  filter (fun t => negb (matches k (Task.id t))) l = l.
Proof.
  intro H. induction l as [|a l IH]; [reflexivity|]. cbn.
  rewrite (H a) by now left. cbn. f_equal. apply IH.
  intros t Ht. apply H. now right.
Qed.

Lemma referenced_unknown (k : sqlval) (w : world) :
  (forall t, In t (backup_tasks w) -> matches k (Task.id t) = false) ->
  referenced k w = false.
Proof.
  intro H. unfold referenced. apply not_true_is_false. intro E.
  apply existsb_exists in E. destruct E as [l [_ E]].
  apply andb_true_iff in E. destruct E as [Em Eh].
  unfold has_task in Eh. apply existsb_exists in Eh.
  destruct Eh as [t [Ht Et]]. apply Z.eqb_eq in Et.
  rewrite <- Et, (H t Ht) in Em. discriminate.
Qed.

(** C6.  POST /api/tasks/:id/run with an id that matches no stored task
    leaves both tables as they were, appends no log row, calls [runBackup]
    on nothing and arms no timer; when the read of the task table succeeds
    the answer is the 404 error, and when it fails, the 500 error. *)
Theorem run_unknown_task (id_param : string) (w : world) :
  (forall t, In t (backup_tasks w) ->
             matches (SText id_param) (Task.id t) = false) ->
  snd (run_task_route id_param w)
    = Some (if faulty (List.length (issued w))
            then json_error 500 "Erro ao disparar backup"
            else json_error 404 "Tarefa não encontrada") /\
  backup_tasks (fst (run_task_route id_param w)) = backup_tasks w /\
  backup_logs (fst (run_task_route id_param w)) = backup_logs w /\
  appended w (fst (run_task_route id_param w)) = [] /\
  invoked (fst (run_task_route id_param w)) = invoked w /\
  pending (fst (run_task_route id_param w)) = pending w.
Proof.
  intro H. unfold run_task_route, select_task, issue, bind, try_catch,
    appended. cbn.
  destruct (faulty (List.length (issued w))); cbn.
  - repeat split. rewrite <- (app_nil_r (backup_logs w)) at 2.
    apply skipn_exact.
  - rewrite (find_unknown _ _ H). cbn. repeat split.
    rewrite <- (app_nil_r (backup_logs w)) at 2. apply skipn_exact.
Qed.

(** The three ways DELETE /api/tasks/:id can go. *)
Lemma delete_task_route_eq (id_param : string) (w : world) :
  delete_task_route id_param w =
    let w1 := with_issued (issued w ++ [DeleteTask (SText id_param)]) w in
    if faulty (List.length (issued w))
    then (w1, Some (json_error 500 "Erro ao excluir tarefa"))
    else if foreign_keys && referenced (SText id_param) w
    then (w1, Some (json_error 500 "Erro ao excluir tarefa"))
    else (with_tasks
            (filter (fun t => negb (matches (SText id_param) (Task.id t)))
                    (backup_tasks w)) w1,
          Some (json_ok BSuccess)).
Proof.
  unfold delete_task_route, delete_task, issue, bind, try_catch.
  destruct (faulty (List.length (issued w))); [reflexivity|].
  change (referenced (SText id_param)
            (with_issued (issued w ++ [DeleteTask (SText id_param)]) w))
    with (referenced (SText id_param) w).
  destruct (foreign_keys && referenced (SText id_param) w); reflexivity.
Qed.

(** What DELETE /api/tasks/:id does with an id that matches no stored task,
    when the store is healthy: nothing, and it answers [{success: true}]. *)
Lemma delete_unknown_task (id_param : string) (w : world) :
  (forall t, In t (backup_tasks w) ->
             matches (SText id_param) (Task.id t) = false) ->
  faulty (List.length (issued w)) = false ->
  snd (delete_task_route id_param w) = Some (json_ok BSuccess) /\
  backup_tasks (fst (delete_task_route id_param w)) = backup_tasks w /\
  backup_logs (fst (delete_task_route id_param w)) = backup_logs w.
Proof.
  intros H Hf. rewrite delete_task_route_eq. cbv zeta.
  rewrite Hf, (referenced_unknown _ _ H), andb_false_r. cbn.
  rewrite (filter_unknown _ _ H). auto.
Qed.

(** ** The listing of logs *)

Lemma newest_first_trans : Relations_1.Transitive newest_first.
Proof. intros a b c. unfold newest_first. lia. Qed.

Lemma StronglySorted_app_le {A : Type} (R : A -> A -> Prop) (l1 l2 : list A) :
  StronglySorted R (l1 ++ l2) ->
  StronglySorted R l1 /\ forall a b, In a l1 -> In b l2 -> R a b.
Proof.
  induction l1 as [|x l1 IH]; cbn; intro H.
  - split; [constructor | intros a b []].
  - inversion H as [|? ? Hs Hall]; subst. destruct (IH Hs) as [Hs1 Hle].
    split.
    + constructor; [exact Hs1|]. apply Forall_forall. intros y Hy.
      rewrite Forall_forall in Hall. apply Hall, in_or_app. now left.
    + intros a b [<-|Ha] Hb.
      * rewrite Forall_forall in Hall. apply Hall, in_or_app. now right.
      * now apply Hle.
Qed.

Lemma in_firstn {A : Type} (n : nat) (l : list A) (x : A) :
  In x (firstn n l) -> In x l.
Proof.
  intro H. rewrite <- (firstn_skipn n l). apply in_or_app. now left.
Qed.

Lemma in_joined (w : world) (l : Log.t) (n : string) :
  In (l, n) (joined w) <->
  In l (backup_logs w) /\
  exists t, In t (backup_tasks w) /\ Task.id t = Log.task_id l /\ Task.name t = n.
Proof.
  unfold joined. rewrite in_flat_map. split.
  - intros [l' [Hl Hin]]. apply in_map_iff in Hin.
    destruct Hin as [t [E Ht]]. apply filter_In in Ht. destruct Ht as [Ht Eq].
    inversion E; subst. apply Z.eqb_eq in Eq.
    split; [exact Hl|]. exists t. auto.
  - intros [Hl [t [Ht [Eid En]]]]. exists l. split; [exact Hl|].
    apply in_map_iff. exists t. split; [now rewrite En|].
    apply filter_In. split; [exact Ht|]. apply Z.eqb_eq. now symmetry.
Qed.

Lemma select_logs_healthy (w : world) :
  faulty (List.length (issued w)) = false ->
  get_logs w = (with_issued (issued w ++ [SelectLogs]) w,
                Some (json_ok (BLogs (firstn 50 (order_by (joined w)))))).
Proof.
  intro H. unfold get_logs, select_logs, issue, bind, try_catch.
  now rewrite H.
Qed.

Lemma select_logs_faulty (w : world) :
  faulty (List.length (issued w)) = true ->
  get_logs w = (with_issued (issued w ++ [SelectLogs]) w,
                Some (json_error 500 "Erro ao buscar logs")).
Proof.
  intro H. unfold get_logs, select_logs, issue, bind, try_catch.
  now rewrite H.
Qed.

(** C9.  When its statement succeeds, GET /api/logs answers at most 50 rows,
    newest first; each is a stored log row with the name of the stored task
    it belongs to; and a stored log row of a stored task that is not listed
    is no newer than any of the 50 rows listed.  When every log row belongs
    to a stored task, that holds of every row of the log table.  The rows
    answered are exactly the first 50 of the joined rows put newest first:
    none is repeated or left out before the limit. *)
Theorem get_logs_latest (w : world) :
  sorter_ok ->
  faulty (List.length (issued w)) = false ->
  exists rows,
    snd (get_logs w) = Some (json_ok (BLogs rows)) /\
    (List.length rows <= 50)%nat /\
    StronglySorted newest_first rows /\
    (forall l n, In (l, n) rows ->
       In l (backup_logs w) /\
       exists t, In t (backup_tasks w) /\
                 Task.id t = Log.task_id l /\ Task.name t = n) /\
    (forall l t, In l (backup_logs w) -> In t (backup_tasks w) ->
       Task.id t = Log.task_id l ->
       In (l, Task.name t) rows \/
       (List.length rows = 50%nat /\
        forall r, In r rows -> Log.timestamp l <= Log.timestamp (fst r))) /\
    (integrity w ->
     forall l, In l (backup_logs w) ->
       (exists n, In (l, n) rows) \/
       (List.length rows = 50%nat /\
        forall r, In r rows -> Log.timestamp l <= Log.timestamp (fst r))) /\
    List.length rows = Nat.min 50 (List.length (joined w)) /\
    exists full,
      Permutation full (joined w) /\ StronglySorted newest_first full /\
      rows = firstn 50 full.
Proof.
  intros Hs Hf. rewrite (select_logs_healthy w Hf). cbn [snd].
  destruct (Hs (joined w)) as [Hperm Hsorted].
  set (full := order_by (joined w)) in *.
  exists (firstn 50 full). split; [reflexivity|].
  apply (Sorted_StronglySorted newest_first_trans) in Hsorted.
  pose proof Hsorted as Hfull.
  rewrite <- (firstn_skipn 50 full) in Hsorted.
  apply StronglySorted_app_le in Hsorted. destruct Hsorted as [Hfirst Hle].
  assert (Hall : forall l t, In l (backup_logs w) -> In t (backup_tasks w) ->
            Task.id t = Log.task_id l ->
            In (l, Task.name t) (firstn 50 full) \/
            (List.length (firstn 50 full) = 50%nat /\
             forall r, In r (firstn 50 full) ->
                       Log.timestamp l <= Log.timestamp (fst r))).
  { intros l t Hl Ht E.
    assert (Hj : In (l, Task.name t) full).
    { apply (Permutation_in _ (Permutation_sym Hperm)). apply in_joined.
      split; [exact Hl|]. exists t. auto. }
    rewrite <- (firstn_skipn 50 full) in Hj. apply in_app_or in Hj.
    destruct Hj as [Hj|Hj]; [now left|]. right. split.
    + apply firstn_length_le.
      destruct (Nat.le_gt_cases 50 (List.length full)) as [L|L]; [exact L|].
      rewrite skipn_all2 in Hj by lia. destruct Hj.
    + intros r Hr. apply (Hle r (l, Task.name t) Hr Hj). }
  split; [apply firstn_le_length|]. split; [exact Hfirst|].
  split; [|split; [exact Hall|split; [|split]]].
  - intros l n Hin. apply in_joined.
    apply (Permutation_in _ Hperm). eapply in_firstn. exact Hin.
  - intros Hint l Hl. unfold integrity in Hint. rewrite Forall_forall in Hint.
    specialize (Hint l Hl). unfold has_task in Hint.
    apply existsb_exists in Hint. destruct Hint as [t [Ht Et]].
    apply Z.eqb_eq in Et. destruct (Hall l t Hl Ht Et) as [H|H].
    + left. now exists (Task.name t).
    + now right.
  - rewrite length_firstn. now rewrite (Permutation_length Hperm).
  - exists full. split; [exact Hperm|]. split; [exact Hfull | reflexivity].
Qed.

(** ** A task left RUNNING stays RUNNING

    Nothing but a run of the task itself writes its status: once a task that
    is never due has been left RUNNING with no run of its own suspended, it
    stays so through every tick, timer and request that is not a request to
    run or delete it. *)

Lemma maintains_ret {A : Type} (I : world -> Prop) (a : A) :
  maintains I (ret a).
Proof. intros w H. exact H. Qed.

Lemma maintains_throw {A : Type} (I : world -> Prop) : maintains I (@throw A).
Proof. intros w H. exact H. Qed.

Lemma maintains_bind {A B : Type} (I : world -> Prop) (m : M A) (k : A -> M B) :
  maintains I m -> (forall a, maintains I (k a)) -> maintains I (bind m k).
Proof.
  intros Hm Hk w H. unfold bind. specialize (Hm w H).
  destruct (m w) as [w' [a|]]; cbn in *; [apply Hk, Hm | exact Hm].
Qed.

Lemma maintains_try_catch {A : Type} (I : world -> Prop) (body handler : M A) :
  maintains I body -> maintains I handler -> maintains I (try_catch body handler).
Proof.
  intros Hb Hh w H. unfold try_catch. specialize (Hb w H).
  destruct (body w) as [w' [a|]]; cbn in *; [exact Hb | apply Hh, Hb].
Qed.

Lemma stuck_same_tasks (tid : Z) (w w' : world) :
  backup_tasks w' = backup_tasks w -> pending w' = pending w ->
  seq_tasks w' = seq_tasks w -> stuck tid w -> stuck tid w'.
Proof.
  intros Ht Hp Hs [H1 H2 H3 H4].
  constructor; unfold rows_of, has_task in *; rewrite ?Ht, ?Hp, ?Hs; assumption.
Qed.

Lemma keeps_issue (tid : Z) (s : statement) : maintains (stuck tid) (issue s).
Proof.
  intros w H. unfold issue.
  destruct (faulty _); cbn; apply (stuck_same_tasks tid w); auto.
Qed.

Lemma filter_update_other (tid : Z) (k : sqlval) (f : Task.t -> Task.t)
  (l : list Task.t) :
  matches k tid = false ->
  (forall t, Task.id (f t) = Task.id t) ->
  filter (fun t => Task.id t =? tid)
         (map (fun t => if matches k (Task.id t) then f t else t) l)
  = filter (fun t => Task.id t =? tid) l.
Proof.
  intros Hk Hf. induction l as [|a l IH]; [reflexivity|]. cbn [map filter].
  destruct (matches k (Task.id a)) eqn:Hm.
  - rewrite Hf. destruct (Z.eqb_spec (Task.id a) tid) as [E|E].
    + rewrite E, Hk in Hm. discriminate.
    + exact IH.
  - destruct (Task.id a =? tid); [now rewrite IH | exact IH].
Qed.

Lemma keeps_update_where (tid : Z) (k : sqlval) (f : Task.t -> Task.t) :
  matches k tid = false ->
  (forall t, Task.id (f t) = Task.id t) ->
  maintains (stuck tid) (update_where k f).
Proof.
  intros Hk Hf w [H1 H2 H3 H4].
  constructor; cbn; try assumption.
  - unfold rows_of in *. cbn. now rewrite filter_update_other.
  - rewrite <- H2. apply (has_task_update tid k f w Hf).
Qed.

Lemma keeps_insert_log (tid tid' : Z) (st msg : string) (rep : option string) :
  maintains (stuck tid) (insert_log tid' st msg rep).
Proof.
  apply maintains_bind; [apply keeps_issue|]. intros _ w H.
  destruct (foreign_keys && negb (has_task tid' w)); cbn; [exact H|].
  apply (stuck_same_tasks tid w); auto.
Qed.

Lemma matches_other (tid : Z) (task : Task.t) :
  Task.id task <> tid -> matches (SInt (Task.id task)) tid = false.
Proof. intro H. cbn. now apply Z.eqb_neq. Qed.

Lemma keeps_on_error (tid : Z) (task : Task.t) :
  Task.id task <> tid -> maintains (stuck tid) (on_error task).
Proof.
  intro H. unfold on_error, update_idle.
  apply maintains_try_catch; [|apply maintains_ret].
  apply maintains_bind; [apply keeps_issue|]. intros _.
  apply keeps_update_where; [now apply matches_other | reflexivity].
Qed.

Lemma keeps_runBackup_start (tid : Z) (task : Task.t) :
  Task.id task <> tid -> maintains (stuck tid) (runBackup_start task).
Proof.
  intro H. unfold runBackup_start, start_body, update_running.
  apply maintains_bind.
  { intros w Hw. apply (stuck_same_tasks tid w); auto. }
  intros _. apply maintains_try_catch.
  - apply maintains_bind.
    { apply maintains_bind; [apply keeps_issue|]. intros _.
      apply keeps_update_where; [now apply matches_other | reflexivity]. }
    intros _. apply maintains_bind; [apply keeps_insert_log|].
    intros _. apply maintains_bind; [|intros _; apply maintains_ret].
    intros w [H1 H2 H3 H4]. constructor; cbn; try assumption.
    apply Forall_app. split; [exact H3|]. constructor; [exact H | constructor].
  - apply maintains_bind; [now apply keeps_on_error | intros _; apply maintains_ret].
Qed.

Lemma keeps_runBackup_resume (tid : Z) (success : bool) (task : Task.t) :
  Task.id task <> tid -> maintains (stuck tid) (runBackup_resume success task).
Proof.
  intro H. unfold runBackup_resume, resume_body, update_idle_last_run.
  apply maintains_try_catch; [|now apply keeps_on_error].
  apply maintains_bind; [apply keeps_insert_log|]. intros _.
  apply maintains_bind; [apply keeps_issue|]. intros _ w.
  apply keeps_update_where; [now apply matches_other | reflexivity].
Qed.

Lemma stuck_never_due (tid : Z) (w : world) (t : Task.t) :
  stuck tid w -> In t (backup_tasks w) -> Task.id t = tid -> never_due t.
Proof.
  intros [H1 _ _ _] Ht E. rewrite Forall_forall in H1.
  apply (H1 t). apply filter_In. split; [exact Ht | now apply Z.eqb_eq].
Qed.

Lemma keeps_evaluate (tid : Z) (day time : string) (task : Task.t) :
  (Task.id task = tid -> never_due task) ->
  maintains (stuck tid) (evaluate day time task).
Proof.
  intro Hn. unfold evaluate, is_due.
  destruct (Z.eq_dec (Task.id task) tid) as [E|E].
  - rewrite (Hn E). cbn. apply maintains_ret.
  - destruct (JSON_parse (days_text task)) as [days|]; [|apply maintains_throw].
    destruct (includes days day) as [b|]; [|apply maintains_throw].
    destruct (b && opt_eqb (Task.schedule_time task) time); [|apply maintains_ret].
    apply maintains_bind; [now apply keeps_runBackup_start|].
    intros _. apply maintains_ret.
Qed.

Lemma keeps_forEach (tid : Z) (day time : string) (tasks : list Task.t) :
  (forall t, In t tasks -> Task.id t = tid -> never_due t) ->
  maintains (stuck tid) (forEach (evaluate day time) tasks).
Proof.
  induction tasks as [|a l IH]; intro H; cbn [forEach]; [apply maintains_ret|].
  apply maintains_bind.
  - apply keeps_evaluate. apply H. now left.
  - intros _. apply IH. intros t Ht. apply H. now right.
Qed.

Lemma keeps_tick (tid : Z) (day time : string) : maintains (stuck tid) (tick day time).
Proof.
  intros w H. unfold tick, select_tasks, try_catch, bind.
  pose proof (keeps_issue tid SelectTasks w H) as Hi.
  destruct (issue SelectTasks w) as [w1 [[]|]] eqn:Ei; cbn [fst] in *;
    [|exact Hi].
  assert (Et : backup_tasks w1 = backup_tasks w).
  { unfold issue in Ei. destruct (faulty _); inversion Ei; reflexivity. }
  pose proof (keeps_forEach tid day time (backup_tasks w1)
                (fun t Ht E => stuck_never_due tid w1 t Hi Ht E) w1 Hi) as Hf.
  destruct (forEach (evaluate day time) (backup_tasks w1) w1) as [w2 [[]|]];
    exact Hf.
Qed.

Lemma find_matches (k : sqlval) (l : list Task.t) (t : Task.t) :
  find (fun t => matches k (Task.id t)) l = Some t ->
  matches k (Task.id t) = true.
Proof. intro H. apply find_some in H. exact (proj2 H). Qed.

Lemma keeps_run_task_route (tid : Z) (i : string) :
  matches (SText i) tid = false -> maintains (stuck tid) (run_task_route i).
Proof.
  intros Hm w H. unfold run_task_route, select_task, try_catch, bind.
  pose proof (keeps_issue tid (SelectTask (SText i)) w H) as Hi.
  destruct (issue (SelectTask (SText i)) w) as [w1 [[]|]]; cbn [fst] in *;
    [|exact Hi].
  destruct (find _ (backup_tasks w1)) as [t|] eqn:Ef; [|exact Hi].
  apply find_matches in Ef.
  assert (Hne : Task.id t <> tid) by (intro E; rewrite E, Hm in Ef; discriminate).
  pose proof (keeps_runBackup_start tid t Hne w1 Hi) as Hr.
  destruct (runBackup_start t w1) as [w2 [b|]]; exact Hr.
Qed.

Lemma rows_of_filter_other (tid : Z) (k : sqlval) (l : list Task.t) :
  matches k tid = false ->
  filter (fun t => Task.id t =? tid)
         (filter (fun t => negb (matches k (Task.id t))) l)
  = filter (fun t => Task.id t =? tid) l.
Proof.
  intro Hk. induction l as [|a l IH]; [reflexivity|]. cbn [filter].
  destruct (Z.eqb_spec (Task.id a) tid) as [E|E].
  - rewrite E, Hk. cbn [negb filter]. rewrite E, Z.eqb_refl. now rewrite IH.
  - destruct (matches k (Task.id a)); cbn [negb]; [exact IH|].
    cbn [filter]. destruct (Z.eqb_spec (Task.id a) tid); [contradiction|].
    exact IH.
Qed.

Lemma keeps_delete_task_route (tid : Z) (i : string) :
  matches (SText i) tid = false -> maintains (stuck tid) (delete_task_route i).
Proof.
  intros Hm w [H1 H2 H3 H4]. rewrite delete_task_route_eq. cbv zeta.
  destruct (faulty _); [now constructor|].
  destruct (foreign_keys && referenced (SText i) w); [now constructor|].
  cbn [fst]. apply has_task_rows in H2. constructor.
  - unfold rows_of in *. cbn. now rewrite rows_of_filter_other.
  - apply has_task_rows. unfold rows_of in *. cbn.
    now rewrite rows_of_filter_other.
  - exact H3.
  - exact H4.
Qed.

Lemma keeps_post_task (tid : Z) (n : new_task) : maintains (stuck tid) (post_task n).
Proof.
  intros w H. unfold post_task, insert_task, try_catch, bind.
  pose proof (keeps_issue tid InsertTask w H) as Hi.
  destruct (issue InsertTask w) as [w1 [[]|]]; cbn [fst] in *; [|exact Hi].
  destruct n as [[a|] [b|] [c|] [d|] [e|] f g h]; cbn; try exact Hi.
  destruct Hi as [H1 H2 H3 H4]. constructor; cbn; try assumption; try lia.
  - unfold rows_of in *. cbn. rewrite filter_app. cbn.
    destruct (Z.eqb_spec (seq_tasks w1 + 1) tid); [lia|]. now rewrite app_nil_r.
  - unfold has_task in *. cbn. rewrite existsb_app, H2. reflexivity.
Qed.

Lemma keeps_fire (tid : Z) (success : bool) : maintains (stuck tid) (fire success).
Proof.
  intros w H. unfold fire.
  destruct (pending w) as [|[armed task] rest] eqn:Ep; [exact H|].
  destruct (armed + 4 <=? clock w); [|exact H].
  destruct H as [H1 H2 H3 H4]. rewrite Ep in H3.
  inversion H3 as [|? ? Hne Hrest]; subst.
  apply keeps_runBackup_resume; [exact Hne|].
  constructor; cbn; assumption.
Qed.

Lemma step_keeps_stuck (tid : Z) (e : event) (w : world) :
  leaves_alone tid e -> stuck tid w -> stuck tid (step e w).
Proof.
  destruct e; cbn; intros Ha H.
  - now apply keeps_tick.
  - unfold get_tasks, select_tasks, try_catch, bind.
    pose proof (keeps_issue tid SelectTasks w H) as Hi.
    destruct (issue SelectTasks w) as [w1 [[]|]]; exact Hi.
  - now apply keeps_post_task.
  - now apply keeps_delete_task_route.
  - unfold get_logs, select_logs, try_catch, bind.
    pose proof (keeps_issue tid SelectLogs w H) as Hi.
    destruct (issue SelectLogs w) as [w1 [[]|]]; exact Hi.
  - now apply keeps_run_task_route.
  - now apply keeps_fire.
  - apply (stuck_same_tasks tid w); auto.
Qed.

(** Whatever happens next, short of a request to run or delete it, a stuck
    task stays stuck. *)
Lemma stuck_forever (tid : Z) (es : list event) (w : world) :
  Forall (leaves_alone tid) es -> stuck tid w -> stuck tid (run_events es w).
Proof.
  revert w. induction es as [|e es IH]; intros w Ha H; [exact H|].
  inversion Ha; subst. cbn. apply IH; [assumption|].
  now apply step_keeps_stuck.
Qed.

(** ** Under foreign-key enforcement no log row loses its task *)

Lemma integrity_same_tables (w w' : world) :
  backup_tasks w' = backup_tasks w -> backup_logs w' = backup_logs w ->
  integrity w -> integrity w'.
Proof.
  unfold integrity, has_task. intros -> ->. auto.
Qed.

Lemma integrity_issue (s : statement) : maintains integrity (issue s).
Proof.
  intros w H. unfold issue.
  destruct (faulty _); cbn; apply (integrity_same_tables w); auto.
Qed.

Lemma integrity_update_where (k : sqlval) (f : Task.t -> Task.t) :
  (forall t, Task.id (f t) = Task.id t) ->
  maintains integrity (update_where k f).
Proof.
  intros Hf w H. unfold integrity in *. cbn [fst update_where backup_logs with_tasks].
  eapply Forall_impl; [|exact H]. intros l Hl.
  rewrite <- Hl. apply (has_task_update (Log.task_id l) k f w Hf).
Qed.

Lemma integrity_insert_log (tid : Z) (st msg : string) (rep : option string) :
  foreign_keys = true ->
  maintains integrity (insert_log tid st msg rep).
Proof.
  intro Hfk. apply maintains_bind; [apply integrity_issue|]. intros _ w H.
  rewrite Hfk. cbn [andb].
  destruct (has_task tid w) eqn:Ht; cbn; [|exact H].
  unfold integrity in *. cbn. apply Forall_app. split; [exact H|].
  constructor; [exact Ht | constructor].
Qed.

Lemma integrity_delete_task (k : sqlval) :
  foreign_keys = true -> maintains integrity (delete_task k).
Proof.
  intro Hfk. apply maintains_bind; [apply integrity_issue|]. intros _ w H.
  rewrite Hfk. cbn [andb].
  destruct (referenced k w) eqn:Hr; cbn; [exact H|].
  unfold integrity in *. cbn. rewrite Forall_forall in *. intros l Hl.
  specialize (H l Hl). unfold referenced in Hr.
  assert (Hm : matches k (Log.task_id l) = false).
  { destruct (matches k (Log.task_id l)) eqn:E; [|reflexivity].
    assert (Hx : existsb (fun l0 => matches k (Log.task_id l0)
                                    && has_task (Log.task_id l0) w)
                         (backup_logs w) = true).
    { apply existsb_exists. exists l. split; [exact Hl|]. now rewrite E, H. }
    rewrite Hx in Hr. discriminate. }
  unfold has_task in *. cbn. apply existsb_exists in H.
  destruct H as [t [Ht Et]]. apply existsb_exists. exists t.
  split; [|exact Et]. apply filter_In. split; [exact Ht|].
  apply Z.eqb_eq in Et. now rewrite Et, Hm.
Qed.

Lemma integrity_insert_task (n : new_task) : maintains integrity (insert_task n).
Proof.
  apply maintains_bind; [apply integrity_issue|]. intros _ w H.
  destruct n as [[a|] [b|] [c|] [d|] [e|] f g h]; cbn; try exact H.
  unfold integrity, has_task in *. cbn. eapply Forall_impl; [|exact H].
  intros l Hl. rewrite existsb_app, Hl. reflexivity.
Qed.

Lemma integrity_on_error (task : Task.t) : maintains integrity (on_error task).
Proof.
  unfold on_error, update_idle.
  apply maintains_try_catch; [|apply maintains_ret].
  apply maintains_bind; [apply integrity_issue|]. intros _.
  now apply integrity_update_where.
Qed.

Lemma integrity_runBackup_start (task : Task.t) :
  foreign_keys = true -> maintains integrity (runBackup_start task).
Proof.
  intro Hfk. unfold runBackup_start, start_body, update_running.
  apply maintains_bind.
  { intros w H. apply (integrity_same_tables w); auto. }
  intros _. apply maintains_try_catch.
  - apply maintains_bind.
    { apply maintains_bind; [apply integrity_issue|]. intros _.
      now apply integrity_update_where. }
    intros _. apply maintains_bind; [now apply integrity_insert_log|].
    intros _. apply maintains_bind; [|intros _; apply maintains_ret].
    intros w H. apply (integrity_same_tables w); auto.
  - apply maintains_bind; [apply integrity_on_error|].
    intros _; apply maintains_ret.
Qed.

Lemma integrity_runBackup_resume (success : bool) (task : Task.t) :
  foreign_keys = true -> maintains integrity (runBackup_resume success task).
Proof.
  intro Hfk. unfold runBackup_resume, resume_body, update_idle_last_run.
  apply maintains_try_catch; [|apply integrity_on_error].
  apply maintains_bind; [now apply integrity_insert_log|]. intros _.
  apply maintains_bind; [apply integrity_issue|]. intros _ w.
  now apply integrity_update_where.
Qed.

Lemma integrity_forEach {A : Type} (f : A -> M unit) (l : list A) :
  (forall a, maintains integrity (f a)) -> maintains integrity (forEach f l).
Proof.
  intro Hf. induction l as [|a l IH]; cbn [forEach]; [apply maintains_ret|].
  apply maintains_bind; [apply Hf | intros _; exact IH].
Qed.

(** With foreign keys enforced, whatever happens, every log row keeps a
    stored task: the join of GET /api/logs then drops no row. *)
Lemma step_keeps_integrity (e : event) (w : world) :
  foreign_keys = true -> integrity w -> integrity (step e w).
Proof.
  intros Hfk. destruct e; cbn; revert w.
  - unfold tick, select_tasks.
    apply maintains_try_catch; [|apply maintains_ret].
    apply maintains_bind.
    { apply maintains_bind; [apply integrity_issue|]. intros _ w H. exact H. }
    intro tasks. apply integrity_forEach. intro t. unfold evaluate.
    destruct (is_due day time t) as [[|]|];
      [|apply maintains_ret|apply maintains_throw].
    apply maintains_bind; [now apply integrity_runBackup_start|].
    intros _. apply maintains_ret.
  - unfold get_tasks, select_tasks.
    apply maintains_try_catch; [|apply maintains_ret].
    apply maintains_bind; [|intro; apply maintains_ret].
    apply maintains_bind; [apply integrity_issue|]. intros _ w H. exact H.
  - unfold post_task.
    apply maintains_try_catch; [|apply maintains_ret].
    apply maintains_bind; [apply integrity_insert_task|].
    intro; apply maintains_ret.
  - unfold delete_task_route.
    apply maintains_try_catch; [|apply maintains_ret].
    apply maintains_bind; [now apply integrity_delete_task|].
    intros _; apply maintains_ret.
  - unfold get_logs, select_logs.
    apply maintains_try_catch; [|apply maintains_ret].
    apply maintains_bind; [|intro; apply maintains_ret].
    apply maintains_bind; [apply integrity_issue|]. intros _ w H. exact H.
  - unfold run_task_route, select_task.
    apply maintains_try_catch; [|apply maintains_ret].
    apply maintains_bind.
    { apply maintains_bind; [apply integrity_issue|]. intros _ w H. exact H. }
    intros [t|]; [|apply maintains_ret].
    apply maintains_bind; [now apply integrity_runBackup_start|].
    intros _; apply maintains_ret.
  - intros w H. unfold fire.
    destruct (pending w) as [|[armed task] rest]; [exact H|].
    destruct (armed + 4 <=? clock w); [|exact H].
    apply integrity_runBackup_resume; [exact Hfk|].
    apply (integrity_same_tables w); auto.
  - intros w H. apply (integrity_same_tables w); auto.
Qed.

(** X15.  With foreign keys enforced, whatever happens, every log row
    keeps a stored task: no run, delete or creation leaves a log row whose
    task is gone, so the join of GET /api/logs drops no row. *)
Lemma run_events_keep_integrity (es : list event) (w : world) :
  foreign_keys = true -> integrity w -> integrity (run_events es w).
Proof.
  intro Hfk. revert w. induction es as [|e es IH]; intros w H; [exact H|].
  cbn. apply IH. now apply step_keeps_integrity.
Qed.

(** ** Invariants of the engine, once and for all *)

Section EngineInvariant.

Variable I : world -> Prop.
Hypothesis HI : engine_invariant I.

Lemma engine_on_error (task : Task.t) : maintains I (on_error task).
Proof.
  unfold on_error, update_idle.
  apply maintains_try_catch; [|apply maintains_ret].
  apply maintains_bind; [apply (inv_issue I HI)|]. intros _.
  apply (inv_idle I HI).
Qed.

Lemma engine_runBackup_start (task : Task.t) : maintains I (runBackup_start task).
Proof.
  unfold runBackup_start, start_body, update_running.
  apply maintains_bind; [apply (inv_note I HI)|]. intros _.
  apply maintains_try_catch.
  - apply maintains_bind.
    { apply maintains_bind; [apply (inv_issue I HI)|]. intros _.
      apply (inv_running I HI). }
    intros _. apply maintains_bind; [apply (inv_started I HI)|].
    intros _. apply maintains_bind; [apply (inv_arm I HI)|].
    intros _. apply maintains_ret.
  - apply maintains_bind; [apply engine_on_error|].
    intros _. apply maintains_ret.
Qed.

Lemma engine_runBackup_resume (success : bool) (task : Task.t) :
  maintains I (runBackup_resume success task).
Proof.
  unfold runBackup_resume, resume_body, update_idle_last_run.
  apply maintains_try_catch; [|apply engine_on_error].
  apply maintains_bind; [apply (inv_terminal I HI)|]. intros _.
  apply maintains_bind; [apply (inv_issue I HI)|]. intros _ w.
  apply (inv_idle_last_run I HI).
Qed.

Lemma engine_select_tasks : maintains I select_tasks.
Proof.
  unfold select_tasks. apply maintains_bind; [apply (inv_issue I HI)|].
  intros _ w H. exact H.
Qed.

Lemma engine_tick (day time : string) : maintains I (tick day time).
Proof.
  unfold tick. apply maintains_try_catch; [|apply maintains_ret].
  apply maintains_bind; [apply engine_select_tasks|]. intro tasks.
  induction tasks as [|t l IH]; cbn [forEach]; [apply maintains_ret|].
  apply maintains_bind; [|intros _; exact IH].
  unfold evaluate. destruct (is_due day time t) as [[|]|];
    [|apply maintains_ret|apply maintains_throw].
  apply maintains_bind; [apply engine_runBackup_start|].
  intros _. apply maintains_ret.
Qed.

Lemma engine_get_tasks : maintains I get_tasks.
Proof.
  unfold get_tasks. apply maintains_try_catch; [|apply maintains_ret].
  apply maintains_bind; [apply engine_select_tasks|].
  intro. apply maintains_ret.
Qed.

Lemma engine_get_logs : maintains I get_logs.
Proof.
  unfold get_logs, select_logs.
  apply maintains_try_catch; [|apply maintains_ret].
  apply maintains_bind; [|intro; apply maintains_ret].
  apply maintains_bind; [apply (inv_issue I HI)|]. intros _ w H. exact H.
Qed.

Lemma engine_run_task_route (i : string) : maintains I (run_task_route i).
Proof.
  unfold run_task_route, select_task.
  apply maintains_try_catch; [|apply maintains_ret].
  apply maintains_bind.
  { apply maintains_bind; [apply (inv_issue I HI)|]. intros _ w H. exact H. }
  intros [t|]; [|apply maintains_ret].
  apply maintains_bind; [apply engine_runBackup_start|].
  intros _. apply maintains_ret.
Qed.

Lemma engine_fire (success : bool) : maintains I (fire success).
Proof.
  intros w H. unfold fire.
  destruct (pending w) as [|[armed task] rest]; [exact H|].
  destruct (armed + 4 <=? clock w); [|exact H].
  apply engine_runBackup_resume. apply (inv_pop I HI). exact H.
Qed.

(** Every event that neither creates nor deletes a task maintains an
    invariant of the engine. *)
Lemma engine_step (e : event) (w : world) :
  engine_event e -> I w -> I (step e w).
Proof.
  destruct e; cbn; intros He H; try contradiction.
  - now apply engine_tick.
  - now apply engine_get_tasks.
  - now apply engine_get_logs.
  - now apply engine_run_task_route.
  - now apply engine_fire.
  - now apply (inv_elapse I HI).
Qed.

(** With the two statements of the task routes on top, every event does. *)
Lemma every_step (e : event) (w : world) :
  (forall n, maintains I (insert_task n)) ->
  (forall k, maintains I (delete_task k)) ->
  I w -> I (step e w).
Proof.
  intros Hpost Hdel H. destruct e; try (apply engine_step; [exact Logic.I | exact H]).
  - cbn. revert w H. unfold post_task.
    apply maintains_try_catch; [|apply maintains_ret].
    apply maintains_bind; [apply Hpost|]. intro. apply maintains_ret.
  - cbn. revert w H. unfold delete_task_route.
    apply maintains_try_catch; [|apply maintains_ret].
    apply maintains_bind; [apply Hdel|]. intros _. apply maintains_ret.
Qed.

Lemma every_run (es : list event) (w : world) :
  (forall n, maintains I (insert_task n)) ->
  (forall k, maintains I (delete_task k)) ->
  I w -> I (run_events es w).
Proof.
  intros Hpost Hdel. revert w. induction es as [|e es IH]; intros w H; [exact H|].
  cbn. apply IH. now apply every_step.
Qed.

Lemma engine_run (es : list event) (w : world) :
  Forall engine_event es -> I w -> I (run_events es w).
Proof.
  revert w. induction es as [|e es IH]; intros w He H; [exact H|].
  inversion He; subst. cbn. apply IH; [assumption|]. now apply engine_step.
Qed.

End EngineInvariant.

(** ** Ids, shapes and definitions *)

Lemma map_update_same {B : Type} (g : Task.t -> B) (c : Task.t -> bool)
  (f : Task.t -> Task.t) (l : list Task.t) :
  (forall t, g (f t) = g t) ->
  map g (map (fun t => if c t then f t else t) l) = map g l.
Proof.
  intro Hf. induction l as [|a l IH]; [reflexivity|]. cbn.
  rewrite IH. destruct (c a); [now rewrite Hf | reflexivity].
Qed.

Lemma Forall_update (P : Task.t -> Prop) (c : Task.t -> bool)
  (f : Task.t -> Task.t) (l : list Task.t) :
  (forall t, P t -> P (f t)) ->
  Forall P l -> Forall P (map (fun t => if c t then f t else t) l).
Proof.
  intros Hf H. induction H as [|a l Ha Hl IH]; cbn; constructor;
    [destruct (c a); auto | exact IH].
Qed.

Lemma StronglySorted_snoc (l : list Z) (x : Z) :
  StronglySorted Z.lt l -> Forall (fun y => y < x) l ->
  StronglySorted Z.lt (l ++ [x]).
Proof.
  induction 1 as [|a l Hs IH Ha]; cbn; intro H.
  - repeat constructor.
  - inversion H; subst. constructor; [now apply IH|].
    apply Forall_app. split; [exact Ha | now constructor].
Qed.

Lemma StronglySorted_map_filter {A : Type} (g : A -> Z) (p : A -> bool)
  (l : list A) :
  StronglySorted Z.lt (map g l) -> StronglySorted Z.lt (map g (filter p l)).
Proof.
  induction l as [|a l IH]; cbn; intro H; [constructor|].
  inversion H as [|? ? Hs Ha]; subst. destruct (p a); cbn; [|now apply IH].
  constructor; [now apply IH|].
  rewrite Forall_forall in *. intros y Hy. apply Ha.
  apply in_map_iff in Hy. destruct Hy as [b [<- Hb]].
  apply filter_In in Hb. apply in_map. exact (proj1 Hb).
Qed.

Lemma StronglySorted_lt_NoDup (l : list Z) : StronglySorted Z.lt l -> NoDup l.
Proof.
  induction 1 as [|a l Hs IH Ha]; constructor; [|exact IH].
  intro Hin. rewrite Forall_forall in Ha. specialize (Ha a Hin). lia.
Qed.

Lemma keyed_same_tables (w w' : world) :
  backup_tasks w' = backup_tasks w -> backup_logs w' = backup_logs w ->
  seq_tasks w' = seq_tasks w -> seq_logs w' = seq_logs w ->
  keyed w -> keyed w'.
Proof.
  intros Ht Hl Hs Hq [H1 H2 H3 H4].
  constructor; rewrite ?Ht, ?Hl, ?Hs, ?Hq; assumption.
Qed.

Lemma keyed_issue (s : statement) : maintains keyed (issue s).
Proof.
  intros w H. unfold issue.
  destruct (faulty _); cbn; apply (keyed_same_tables w); auto.
Qed.

Lemma keyed_update (k : sqlval) (f : Task.t -> Task.t) :
  (forall t, Task.id (f t) = Task.id t) -> maintains keyed (update_where k f).
Proof.
  intros Hf w [H1 H2 H3 H4]. constructor; cbn; try assumption.
  - now rewrite map_update_same.
  - apply Forall_update; [|exact H2]. intros t Ht. now rewrite Hf.
Qed.

Lemma keyed_insert_log (tid : Z) (st msg : string) (rep : option string) :
  maintains keyed (insert_log tid st msg rep).
Proof.
  apply maintains_bind; [apply keyed_issue|]. intros _ w [H1 H2 H3 H4].
  destruct (foreign_keys && negb (has_task tid w)); cbn; [now constructor|].
  constructor; cbn; try assumption.
  - rewrite map_app. cbn. apply StronglySorted_snoc; [exact H3|].
    apply Forall_forall. intros y Hy. apply in_map_iff in Hy.
    destruct Hy as [l [<- Hl]]. rewrite Forall_forall in H4.
    specialize (H4 l Hl). lia.
  - apply Forall_app. split.
    + eapply Forall_impl; [|exact H4]. cbn. intros l Hl. lia.
    + constructor; [cbn; lia | constructor].
Qed.

Lemma keyed_insert_task (n : new_task) : maintains keyed (insert_task n).
Proof.
  apply maintains_bind; [apply keyed_issue|]. intros _ w [H1 H2 H3 H4].
  destruct n as [[a|] [b|] [c|] [d|] [e|] f g h]; cbn; try now constructor.
  constructor; cbn; try assumption.
  - rewrite map_app. cbn. apply StronglySorted_snoc; [exact H1|].
    apply Forall_forall. intros y Hy. apply in_map_iff in Hy.
    destruct Hy as [t [<- Ht]]. rewrite Forall_forall in H2.
    specialize (H2 t Ht). lia.
  - apply Forall_app. split.
    + eapply Forall_impl; [|exact H2]. cbn. intros t Ht. lia.
    + constructor; [cbn; lia | constructor].
Qed.

Lemma keyed_delete_task (k : sqlval) : maintains keyed (delete_task k).
Proof.
  apply maintains_bind; [apply keyed_issue|]. intros _ w [H1 H2 H3 H4].
  destruct (foreign_keys && referenced k w); cbn; [now constructor|].
  constructor; cbn; try assumption.
  - now apply StronglySorted_map_filter.
  - apply Forall_forall. intros t Ht. apply filter_In in Ht.
    rewrite Forall_forall in H2. apply H2. exact (proj1 Ht).
Qed.

Lemma keyed_engine : engine_invariant keyed.
Proof.
  constructor.
  - apply keyed_issue.
  - intro k. now apply keyed_update.
  - intro k. now apply keyed_update.
  - intros k c. now apply keyed_update.
  - intro task. apply keyed_insert_log.
  - intros success task. apply keyed_insert_log.
  - intros task w H. apply (keyed_same_tables w); auto.
  - intros task w H. apply (keyed_same_tables w); auto.
  - intros rest w H. apply (keyed_same_tables w); auto.
  - intros c w H. apply (keyed_same_tables w); auto.
Qed.

(** X1.  Whatever happens, ids stay in order: in both tables the ids grow
    along the rows, so no two tasks and no two log rows share an id, and no
    id is beyond its AUTOINCREMENT counter, so an id that a deleted task had
    is never handed out again. *)
Theorem ids_stay_unique (es : list event) (w : world) :
  keyed w ->
  keyed (run_events es w) /\
  NoDup (map Task.id (backup_tasks (run_events es w))) /\
  NoDup (map Log.id (backup_logs (run_events es w))) /\
  seq_tasks w <= seq_tasks (run_events es w).
Proof.
  intro H.
  assert (Hk : keyed (run_events es w)).
  { apply (every_run keyed keyed_engine);
      [apply keyed_insert_task | apply keyed_delete_task | exact H]. }
  split; [exact Hk|]. destruct Hk as [H1 _ H3 _].
  split; [now apply StronglySorted_lt_NoDup|].
  split; [now apply StronglySorted_lt_NoDup|].
  clear. revert w. induction es as [|e es IH]; intro w; cbn; [lia|].
  eapply Z.le_trans; [|apply IH].
  assert (Hm : engine_invariant (fun v => seq_tasks w <= seq_tasks v)).
  { constructor; try (intros; intros v Hv; exact Hv); try (intros; assumption).
    - intros s v Hv. unfold issue. destruct (faulty _); exact Hv.
    - intros task v Hv. unfold insert_log, issue, bind.
      destruct (faulty _); cbn; [exact Hv|].
      destruct (foreign_keys && _); exact Hv.
    - intros success task v Hv. unfold insert_log, issue, bind.
      destruct (faulty _); cbn; [exact Hv|].
      destruct (foreign_keys && _); exact Hv. }
  apply (every_step _ Hm).
  - intros n v Hv. unfold insert_task, issue, bind.
    destruct (faulty _); cbn; [exact Hv|].
    destruct n as [[a|] [b|] [c|] [d|] [e'|] f g h]; cbn in *; lia.
  - intros k v Hv. unfold delete_task, issue, bind.
    destruct (faulty _); cbn; [exact Hv|].
    destruct (foreign_keys && _); exact Hv.
  - lia.
Qed.

Lemma well_formed_same_tables (w w' : world) :
  backup_tasks w' = backup_tasks w -> backup_logs w' = backup_logs w ->
  well_formed w -> well_formed w'.
Proof. unfold well_formed. intros -> ->. auto. Qed.

Lemma well_formed_issue (s : statement) : maintains well_formed (issue s).
Proof.
  intros w H. unfold issue.
  destruct (faulty _); cbn; apply (well_formed_same_tables w); auto.
Qed.

Lemma well_formed_update (k : sqlval) (f : Task.t -> Task.t) :
  (forall t, Task.status (f t) = "IDLE" \/ Task.status (f t) = "RUNNING") ->
  maintains well_formed (update_where k f).
Proof.
  intros Hf w [H1 H2]. split; cbn; [|exact H2].
  apply Forall_update; [|exact H1]. intros t _. apply Hf.
Qed.

Lemma well_formed_insert_log (tid : Z) (st msg : string) (rep : option string) :
  (forall i c, log_shape (Log.mk i tid c st msg rep)) ->
  maintains well_formed (insert_log tid st msg rep).
Proof.
  intro Hs. apply maintains_bind; [apply well_formed_issue|].
  intros _ w [H1 H2].
  destruct (foreign_keys && negb (has_task tid w)); cbn; [now split|].
  split; cbn; [exact H1|]. apply Forall_app. split; [exact H2|].
  constructor; [apply Hs | constructor].
Qed.

Lemma well_formed_engine : engine_invariant well_formed.
Proof.
  constructor.
  - apply well_formed_issue.
  - intro k. apply well_formed_update. intro t. now right.
  - intro k. apply well_formed_update. intro t. now left.
  - intros k c. apply well_formed_update. intro t. now left.
  - intro task. apply well_formed_insert_log. intros i c. left. now split.
  - intros success task. apply well_formed_insert_log. intros i c.
    right. destruct success; [left | right]; now split.
  - intros task w H. apply (well_formed_same_tables w); auto.
  - intros task w H. apply (well_formed_same_tables w); auto.
  - intros rest w H. apply (well_formed_same_tables w); auto.
  - intros c w H. apply (well_formed_same_tables w); auto.
Qed.

(** X2.  Whatever happens, the tables hold only what the server writes:
    every task is IDLE or RUNNING, and every log row is an INICIADO row
    without a report, a SUCESSO row with the all-OK report or a FALHA row
    with the report of a failure. *)
Theorem tables_stay_well_formed (es : list event) (w : world) :
  well_formed w -> well_formed (run_events es w).
Proof.
  apply (every_run well_formed well_formed_engine).
  - intro n. apply maintains_bind; [apply well_formed_issue|].
    intros _ v [H1 H2].
    destruct n as [[a|] [b|] [c|] [d|] [e|] f g h]; cbn; try now split.
    split; cbn; [|exact H2]. apply Forall_app. split; [exact H1|].
    constructor; [now left | constructor].
  - intro k. apply maintains_bind; [apply well_formed_issue|].
    intros _ v [H1 H2].
    destruct (foreign_keys && referenced k v); cbn; [now split|].
    split; cbn; [|exact H2]. apply Forall_forall. intros t Ht.
    apply filter_In in Ht. rewrite Forall_forall in H1. apply H1.
    exact (proj1 Ht).
Qed.

(** X3.  A tick, a timer, a request to run a task and the two listings
    never create, delete, reorder or redefine a task: whatever they are and
    however the store fails, all that changes in the task table is [status]
    and [last_run]. *)
Theorem engine_keeps_definitions (es : list event) (w : world) :
  Forall engine_event es ->
  map definition (backup_tasks (run_events es w))
  = map definition (backup_tasks w).
Proof.
  intro He.
  apply (engine_run
           (fun v => map definition (backup_tasks v)
                     = map definition (backup_tasks w))); [|exact He|reflexivity].
  assert (Hi : forall s, maintains
                 (fun v => map definition (backup_tasks v)
                           = map definition (backup_tasks w)) (issue s)).
  { intros s v Hv. unfold issue. destruct (faulty _); exact Hv. }
  assert (Hu : forall k f, (forall t, definition (f t) = definition t) ->
                 maintains
                   (fun v => map definition (backup_tasks v)
                             = map definition (backup_tasks w))
                   (update_where k f)).
  { intros k f Hf v Hv. cbn. now rewrite map_update_same. }
  assert (Hl : forall tid st msg rep,
                 maintains
                   (fun v => map definition (backup_tasks v)
                             = map definition (backup_tasks w))
                   (insert_log tid st msg rep)).
  { intros tid st msg rep. apply maintains_bind; [apply Hi|].
    intros _ v Hv. destruct (foreign_keys && negb (has_task tid v)); exact Hv. }
  constructor.
  - exact Hi.
  - intro k. now apply Hu.
  - intro k. now apply Hu.
  - intros k c. now apply Hu.
  - intro task. apply Hl.
  - intros success task. apply Hl.
  - intros task v Hv. exact Hv.
  - intros task v Hv. exact Hv.
  - intros rest v Hv. exact Hv.
  - intros c v Hv. exact Hv.
Qed.

(** ** Creating, listing and running tasks *)

Lemma post_task_eq (n : new_task) (w : world) :
  post_task n w =
    let w1 := with_issued (issued w ++ [InsertTask]) w in
    if faulty (List.length (issued w))
    then (w1, Some (json_error 500 "Erro ao criar tarefa"))
    else
      match new_name n, new_source_path n, new_destination_path n,
            new_destination_type n, new_backup_type n with
      | Some nm, Some src, Some dst, Some dty, Some bty =>
          (mkWorld (backup_tasks w ++
                      [Task.mk (seq_tasks w + 1) nm src dst dty bty
                               (new_schedule_days n) (new_schedule_time n)
                               None "IDLE"
                               (if new_email_notifications n then 1 else 0)])
                   (backup_logs w) (seq_tasks w + 1) (seq_logs w) (clock w)
                   (pending w) (issued w ++ [InsertTask]) (invoked w),
           Some (json_ok (BId (seq_tasks w + 1))))
      | _, _, _, _, _ => (w1, Some (json_error 500 "Erro ao criar tarefa"))
      end.
Proof.
  unfold post_task, insert_task, issue, bind, try_catch. cbv zeta.
  destruct (faulty (List.length (issued w))); [reflexivity|].
  destruct n as [[a|] [b|] [c|] [d|] [e|] f g h]; reflexivity.
Qed.

Lemma get_tasks_eq (w : world) :
  get_tasks w =
    (with_issued (issued w ++ [SelectTasks]) w,
     Some (if faulty (List.length (issued w))
           then json_error 500 "Erro ao buscar tarefas"
           else json_ok (BTasks (backup_tasks w)))).
Proof.
  unfold get_tasks, select_tasks, issue, bind, try_catch.
  destruct (faulty (List.length (issued w))); reflexivity.
Qed.

Lemma fresh_id (w : world) :
  keyed w -> ~ In (seq_tasks w + 1) (map Task.id (backup_tasks w)).
Proof.
  intros [_ H _ _] Hin. apply in_map_iff in Hin. destruct Hin as [t [E Ht]].
  rewrite Forall_forall in H. specialize (H t Ht). lia.
Qed.

(** X4.  A task created with its five required columns is answered an id no
    stored task has, and the next GET /api/tasks lists the tasks there were,
    in their order, followed by the new one: the columns as sent, IDLE,
    never run.  The log table is untouched. *)
Theorem post_task_then_listed (nm src dst dty bty : string)
  (days time : option string) (email : bool) (w : world) :
  keyed w ->
  faulty (List.length (issued w)) = false ->
  faulty (S (List.length (issued w))) = false ->
  snd (post_task (mkNew (Some nm) (Some src) (Some dst) (Some dty) (Some bty)
                        days time email) w)
  = Some (json_ok (BId (seq_tasks w + 1))) /\
  ~ In (seq_tasks w + 1) (map Task.id (backup_tasks w)) /\
  snd (get_tasks
         (fst (post_task (mkNew (Some nm) (Some src) (Some dst) (Some dty)
                                (Some bty) days time email) w)))
  = Some (json_ok (BTasks
       (backup_tasks w ++
          [Task.mk (seq_tasks w + 1) nm src dst dty bty days time None "IDLE"
                   (if email then 1 else 0)]))) /\
  backup_logs (fst (post_task (mkNew (Some nm) (Some src) (Some dst) (Some dty)
                                     (Some bty) days time email) w))
  = backup_logs w.
Proof.
  intros Hk H0 H1. rewrite post_task_eq. cbv zeta. rewrite H0. cbn [fst snd new_name
    new_source_path new_destination_path new_destination_type new_backup_type
    new_schedule_days new_schedule_time new_email_notifications].
  split; [reflexivity|]. split; [now apply fresh_id|].
  rewrite get_tasks_eq. cbn [snd issued backup_tasks backup_logs].
  rewrite length_app, Nat.add_comm. cbn [List.length Nat.add]. rewrite H1.
  split; reflexivity.
Qed.

(** X5.  A task sent without one of its five required columns is not
    stored: the INSERT throws on the NOT NULL constraint, the route answers
    500, and both tables and the id counter are as they were. *)
Theorem post_task_rejects_null (n : new_task) (w : world) :
  new_name n = None \/ new_source_path n = None \/
  new_destination_path n = None \/ new_destination_type n = None \/
  new_backup_type n = None ->
  snd (post_task n w) = Some (json_error 500 "Erro ao criar tarefa") /\
  backup_tasks (fst (post_task n w)) = backup_tasks w /\
  backup_logs (fst (post_task n w)) = backup_logs w /\
  seq_tasks (fst (post_task n w)) = seq_tasks w.
Proof.
  intro H. rewrite post_task_eq. cbv zeta.
  destruct (faulty (List.length (issued w))); [repeat split|].
  destruct n as [[a|] [b|] [c|] [d|] [e|] f g h]; cbn in *;
    try (repeat split; fail).
  destruct H as [H|[H|[H|[H|H]]]]; discriminate.
Qed.

(** X6.  Creating a task and deleting it by the id answered leaves the task
    table as it was before, while the id counter has moved on: the id is
    spent.  No log row bears the id yet, so the delete goes through with or
    without foreign-key enforcement. *)
Theorem post_then_delete (nm src dst dty bty id_param : string)
  (days time : option string) (email : bool) (w : world) :
  keyed w ->
  text_to_int id_param = Some (seq_tasks w + 1) ->
  Forall (fun l => Log.task_id l <> seq_tasks w + 1) (backup_logs w) ->
  faulty (List.length (issued w)) = false ->
  faulty (S (List.length (issued w))) = false ->
  snd (delete_task_route id_param
         (fst (post_task (mkNew (Some nm) (Some src) (Some dst) (Some dty)
                                (Some bty) days time email) w)))
  = Some (json_ok BSuccess) /\
  backup_tasks
    (fst (delete_task_route id_param
            (fst (post_task (mkNew (Some nm) (Some src) (Some dst) (Some dty)
                                   (Some bty) days time email) w))))
  = backup_tasks w /\
  seq_tasks
    (fst (delete_task_route id_param
            (fst (post_task (mkNew (Some nm) (Some src) (Some dst) (Some dty)
                                   (Some bty) days time email) w))))
  = seq_tasks w + 1.
Proof.
  intros Hk Hid Hlogs H0 H1. rewrite post_task_eq. cbv zeta. rewrite H0.
  cbn [fst snd new_name new_source_path new_destination_path
    new_destination_type new_backup_type new_schedule_days new_schedule_time
    new_email_notifications].
  rewrite delete_task_route_eq. cbv zeta. cbn [issued backup_tasks].
  rewrite length_app, Nat.add_comm. cbn [List.length Nat.add]. rewrite H1.
  assert (Hm : forall z, matches (SText id_param) z = (seq_tasks w + 1 =? z)).
  { intro z. unfold matches. now rewrite Hid. }
  assert (Hr : forall v, backup_logs v = backup_logs w ->
                         referenced (SText id_param) v = false).
  { intros v Hv. unfold referenced. rewrite Hv. apply not_true_is_false.
    intro E. apply existsb_exists in E. destruct E as [l [Hl E]].
    apply andb_true_iff in E. destruct E as [E _]. rewrite Hm in E.
    apply Z.eqb_eq in E. rewrite Forall_forall in Hlogs.
    now apply (Hlogs l Hl). }
  rewrite Hr by reflexivity. rewrite andb_false_r. cbn [fst snd].
  split; [reflexivity|]. split; [|reflexivity].
  cbn [backup_tasks with_tasks with_issued]. rewrite filter_app. cbn [filter].
  cbn [Task.id]. rewrite Hm, Z.eqb_refl. cbn [negb]. rewrite app_nil_r.
  apply forallb_filter_id. apply forallb_forall. intros t Ht.
  rewrite Hm. destruct Hk as [_ Hmax _ _]. rewrite Forall_forall in Hmax.
  specialize (Hmax t Ht). apply negb_true_iff. apply Z.eqb_neq. lia.
Qed.

(** X7.  POST /api/tasks/:id/run on a stored task answers [{success: true}]
    and has called [runBackup] once, on the row it read, whatever the status
    of the task was and whatever the statements of the run itself do: the
    call is not awaited and its errors are not the caller's. *)
Theorem run_known_task (id_param : string) (t : Task.t) (w : world) :
  faulty (List.length (issued w)) = false ->
  find (fun t => matches (SText id_param) (Task.id t)) (backup_tasks w) = Some t ->
  snd (run_task_route id_param w) = Some (json_ok BSuccess) /\
  invoked (fst (run_task_route id_param w)) = invoked w ++ [t].
Proof.
  intros Hf Ht. unfold run_task_route, select_task, issue, try_catch, bind.
  rewrite Hf. cbn [backup_tasks with_issued]. rewrite Ht.
  destruct (runBackup_start_invoked t (with_issued (issued w ++ [SelectTask (SText id_param)]) w))
    as [[b Hb] Hi].
  destruct (runBackup_start t _) as [w1 r]. cbn [fst snd] in *. subst r.
  cbn [fst snd ret]. split; [reflexivity | exact Hi].
Qed.

(** X8.  The two listings are read-only, whatever the store does: after
    GET /api/tasks and after GET /api/logs both tables, the counters, the
    timers and the clock are as before.  GET /api/tasks answers the stored
    rows in store order, or 500 when its SELECT throws. *)
Theorem listings_change_nothing (w : world) :
  (backup_tasks (fst (get_tasks w)) = backup_tasks w /\
   backup_logs (fst (get_tasks w)) = backup_logs w /\
   seq_tasks (fst (get_tasks w)) = seq_tasks w /\
   seq_logs (fst (get_tasks w)) = seq_logs w /\
   pending (fst (get_tasks w)) = pending w /\
   clock (fst (get_tasks w)) = clock w) /\
  (backup_tasks (fst (get_logs w)) = backup_tasks w /\
   backup_logs (fst (get_logs w)) = backup_logs w /\
   seq_tasks (fst (get_logs w)) = seq_tasks w /\
   seq_logs (fst (get_logs w)) = seq_logs w /\
   pending (fst (get_logs w)) = pending w /\
   clock (fst (get_logs w)) = clock w) /\
  snd (get_tasks w)
  = Some (if faulty (List.length (issued w))
          then json_error 500 "Erro ao buscar tarefas"
          else json_ok (BTasks (backup_tasks w))).
Proof.
  rewrite get_tasks_eq. cbn [fst snd].
  destruct (faulty (List.length (issued w))) eqn:Hf.
  - rewrite (select_logs_faulty w Hf). repeat split.
  - rewrite (select_logs_healthy w Hf). repeat split.
Qed.

(** ** Runs that overlap *)

(** X9.  [runBackup] holds no lock on its task.  When the oldest timer fires
    while a later run of the same task is still suspended, and no statement
    throws, the task is marked IDLE although that later run is still in
    flight. *)
Theorem first_finisher_marks_idle (success : bool) (w : world) (armed : Z)
  (task : Task.t) (rest : list (Z * Task.t)) (other : Z * Task.t) :
  pending w = (armed, task) :: rest ->
  armed + 4 <= clock w ->
  In other rest ->
  Task.id (snd other) = Task.id task ->
  has_task (Task.id task) w = true ->
  threw (resume_body success task) (with_pending rest w) = false ->
  In other (pending (fst (fire success w))) /\
  rows_of (Task.id task) (fst (fire success w)) <> [] /\
  Forall (fun t => Task.status t = "IDLE")
         (rows_of (Task.id task) (fst (fire success w))).
Proof.
  intros Hp Hc Hin Hid Ht Hr. unfold fire. rewrite Hp.
  apply Z.leb_le in Hc. rewrite Hc.
  rewrite (runBackup_resume_returned success task _ Hr). cbn [fst pending].
  split; [exact Hin|].
  apply has_task_rows in Ht. unfold rows_of in *.
  cbn [backup_tasks with_pending]. rewrite rows_of_update by reflexivity.
  split.
  - intro E. apply map_eq_nil in E. contradiction.
  - apply Forall_forall. intros t Hin'. apply in_map_iff in Hin'.
    now destruct Hin' as [t0 [<- _]].
Qed.

(** ** Tasks without a schedule *)

(** X10.  A task stored without days, NULL or the empty text, is read as the
    empty array: it is not due at any tick and does not make the tick throw.
    A task stored without a time is not due either, whatever its days. *)
Theorem unscheduled_never_due (day time : string) (task : Task.t) :
  JSON_parse "[]" = Some (JArr []) ->
  (Task.schedule_days task = None \/ Task.schedule_days task = Some EmptyString ->
   is_due day time task = Some false) /\
  (Task.schedule_time task = None -> due day time task = false).
Proof.
  intro Hp. split.
  - intro H. unfold is_due, days_text.
    destruct H as [-> | ->]; rewrite Hp; reflexivity.
  - intro H. unfold due, is_due. rewrite H.
    destruct (JSON_parse (days_text task)) as [days|]; [|reflexivity].
    destruct (includes days day) as [b|]; [|reflexivity].
    cbn. apply andb_false_r.
Qed.

(** ** The days of the form *)

Lemma existsb_toggle (d day : string) (l : list string) :
  existsb (String.eqb d) (toggle_day day l)
  = if String.eqb d day then negb (existsb (String.eqb d) l)
    else existsb (String.eqb d) l.
Proof.
  unfold toggle_day. destruct (String.eqb_spec d day) as [->|Hne].
  - destruct (existsb (String.eqb day) l) eqn:E; cbn.
    + apply not_true_is_false. intro H. apply existsb_exists in H.
      destruct H as [x [Hx Ex]]. apply filter_In in Hx.
      apply String.eqb_eq in Ex. subst x. destruct Hx as [_ Hx].
      rewrite String.eqb_refl in Hx. discriminate.
    + rewrite existsb_app, E. cbn. now rewrite String.eqb_refl.
  - destruct (existsb (String.eqb day) l) eqn:E.
    + destruct (existsb (String.eqb d) l) eqn:Ed.
      * apply existsb_exists in Ed. destruct Ed as [x [Hx Ex]].
        apply existsb_exists. exists x. split; [|exact Ex].
        apply filter_In. split; [exact Hx|]. apply String.eqb_eq in Ex.
        subst x. apply negb_true_iff. now apply String.eqb_neq.
      * apply not_true_is_false. intro H. apply existsb_exists in H.
        destruct H as [x [Hx Ex]]. apply filter_In in Hx.
        assert (Hd : existsb (String.eqb d) l = true)
          by (apply existsb_exists; exists x; split;
              [exact (proj1 Hx) | exact Ex]).
        rewrite Hd in Ed. discriminate.
    + rewrite existsb_app. cbn. apply String.eqb_neq in Hne. rewrite Hne.
      now rewrite !orb_false_r.
Qed.

Lemma NoDup_toggle (day : string) (l : list string) :
  NoDup l -> NoDup (toggle_day day l).
Proof.
  intro H. unfold toggle_day. destruct (existsb (String.eqb day) l) eqn:E.
  - now apply NoDup_filter.
  - apply NoDup_app; [exact H | repeat constructor; intros [] |].
    intros x Hx [Hd|[]]. subst x.
    assert (Hd : existsb (String.eqb day) l = true).
    { apply existsb_exists. exists day. split; [exact Hx | apply String.eqb_refl]. }
    rewrite Hd in E. discriminate.
Qed.

Lemma incl_toggle (day : string) (l : list string) (d : string) :
  In d (toggle_day day l) -> d = day \/ In d l.
Proof.
  unfold toggle_day. destruct (existsb (String.eqb day) l).
  - intro H. apply filter_In in H. right. exact (proj1 H).
  - intro H. apply in_app_or in H. destruct H as [H|[<-|[]]]; auto.
Qed.

Lemma fold_toggle (clicks acc : list string) :
  NoDup acc ->
  NoDup (fold_left (fun s day => toggle_day day s) clicks acc) /\
  (forall d, existsb (String.eqb d)
                     (fold_left (fun s day => toggle_day day s) clicks acc)
             = xorb (existsb (String.eqb d) acc)
                    (Nat.odd (count_occ string_dec clicks d))) /\
  (forall d, In d (fold_left (fun s day => toggle_day day s) clicks acc) ->
             In d clicks \/ In d acc).
Proof.
  revert acc. induction clicks as [|c clicks IH]; intros acc Hn; cbn [fold_left].
  - split; [exact Hn|]. split; [|auto]. intro d. cbn. now rewrite xorb_false_r.
  - destruct (IH (toggle_day c acc) (NoDup_toggle c acc Hn)) as [H1 [H2 H3]].
    split; [exact H1|]. split.
    + intro d. rewrite H2, existsb_toggle. cbn [count_occ].
      destruct (string_dec c d) as [->|Hne].
      * rewrite String.eqb_refl, Nat.odd_succ, <- Nat.negb_odd.
        destruct (existsb (String.eqb d) acc), (Nat.odd _); reflexivity.
      * assert (E : String.eqb d c = false)
          by (apply String.eqb_neq; congruence).
        now rewrite E.
    + intros d Hd. destruct (H3 d Hd) as [H|H]; [left; now right|].
      apply incl_toggle in H. destruct H as [->|H]; [left; now left | now right].
Qed.

Lemma click_days_clicked (clicks : list string) (d : string) :
  In d (click_days clicks) -> In d clicks.
Proof.
  intro Hd. destruct (fold_toggle clicks [] (NoDup_nil _)) as [_ [_ H3]].
  destruct (H3 d Hd) as [H|[]]. exact H.
Qed.

Lemma days_text_json (task : Task.t) (l : list string) :
  Task.schedule_days task = Some (days_json l) -> days_text task = days_json l.
Proof. intro H. unfold days_text. rewrite H. reflexivity. Qed.

(** X11.  Whatever day buttons are clicked in whatever order, the days the
    form holds have no duplicate, a day is among them exactly when it was
    clicked an odd number of times, and they are days that were clicked. *)
Theorem form_days_are_a_set (clicks : list string) :
  NoDup (click_days clicks) /\
  (forall d, In d (click_days clicks) <->
             Nat.odd (count_occ string_dec clicks d) = true) /\
  (forall d, In d (click_days clicks) -> In d clicks).
Proof.
  unfold click_days.
  destruct (fold_toggle clicks [] (NoDup_nil _)) as [H1 [H2 H3]].
  split; [exact H1|]. split.
  - intro d. specialize (H2 d). cbn in H2. rewrite <- H2. split.
    + intro H. apply existsb_exists. exists d.
      split; [exact H | apply String.eqb_refl].
    + intro H. apply existsb_exists in H. destruct H as [x [Hx Ex]].
      apply String.eqb_eq in Ex. now subst x.
  - intros d Hd. destruct (H3 d Hd) as [H|[]]. exact H.
Qed.

Lemma english_days_not_in_form : Forall (fun d => ~ In d DAYS) weekdays_en.
Proof.
  repeat constructor; intro H; cbn in H;
    repeat (destruct H as [H|H]; [discriminate H|]); exact H.
Qed.

Lemma existsb_json_strings (day : string) (l : list string) :
  existsb (json_is_str day) (map JStr l) = existsb (String.eqb day) l.
Proof.
  induction l as [|a l IH]; [reflexivity|]. cbn. rewrite IH.
  now rewrite (String.eqb_sym a day).
Qed.

(** X12.  A task created through the form is never due.  The form stores
    day names taken from [DAYS], the scheduler asks for the day under its
    English name, and no name is both: whatever days were chosen, whatever
    the weekday and the time of the tick, line 162 is false for the task. *)
Theorem form_task_never_due (clicks : list string) (task : Task.t) :
  Forall (fun c => In c DAYS) clicks ->
  Task.schedule_days task = Some (days_json (click_days clicks)) ->
  JSON_parse (days_json (click_days clicks))
  = Some (JArr (map JStr (click_days clicks))) ->
  forall day time,
    ~ In day DAYS \/ In day weekdays_en ->
    is_due day time task = Some false.
Proof.
  intros Hc Hs Hp day time Hday.
  assert (Hn : ~ In day DAYS).
  { destruct Hday as [H|H]; [exact H|].
    pose proof english_days_not_in_form as He. rewrite Forall_forall in He.
    now apply He. }
  unfold is_due. rewrite (days_text_json task _ Hs).
  rewrite Hp. cbn [includes]. rewrite existsb_json_strings.
  replace (existsb (String.eqb day) (click_days clicks)) with false;
    [reflexivity|].
  symmetry. apply not_true_is_false. intro E. apply existsb_exists in E.
  destruct E as [x [Hx Ex]]. apply String.eqb_eq in Ex. subst x.
  apply Hn. rewrite Forall_forall in Hc. apply Hc.
  now apply click_days_clicked.
Qed.

(** ** The export of the project *)

Lemma assign_fresh (k v : string) (o : list (string * string)) :
  ~ In k (map fst o) -> assign k v o = o ++ [(k, v)].
Proof.
  induction o as [|[k' v'] o IH]; cbn; intro H; [reflexivity|].
  destruct (String.eqb_spec k' k) as [E|E]; [exfalso; auto|].
  rewrite IH; auto.
Qed.

Lemma map_fst_entries (disk : string -> file_state) (l : list string) :
  map fst (flat_map (entry disk) l) = filter (readable disk) l.
Proof.
  induction l as [|f l IH]; [reflexivity|]. cbn [flat_map filter].
  rewrite map_app, IH. unfold entry, readable. destruct (disk f); reflexivity.
Qed.

Lemma bundle_files_readable (disk : string -> file_state) (l : list string) :
  forall o,
    NoDup l ->
    (forall f, In f l -> ~ In f (map fst o)) ->
    Forall (fun f => disk f <> Unreadable) l ->
    bundle_files disk l o = Some (o ++ flat_map (entry disk) l).
Proof.
  induction l as [|f l IH]; intros o Hn Hd Hr; cbn.
  - now rewrite app_nil_r.
  - inversion Hn as [|? ? Hf Hn']; subst. inversion Hr as [|? ? Hu Hr']; subst.
    unfold entry at 1. destruct (disk f) as [|content|] eqn:E.
    + apply IH; auto. intros g Hg. apply Hd. now right.
    + rewrite assign_fresh by (apply Hd; now left).
      rewrite IH; auto.
      * now rewrite <- app_assoc.
      * intros g Hg. rewrite map_app, in_app_iff. cbn.
        intros [H|[H|[]]]; [|congruence]. apply (Hd g); [now right | exact H].
    + congruence.
Qed.

Lemma bundle_files_unreadable (disk : string -> file_state) (l : list string) :
  forall o,
    Exists (fun f => disk f = Unreadable) l -> bundle_files disk l o = None.
Proof.
  induction l as [|f l IH]; intros o H; [inversion H|].
  cbn. inversion H as [? ? Hf|? ? Hl]; subst.
  - now rewrite Hf.
  - destruct (disk f); auto.
Qed.

(** X13.  GET /api/export-project bundles exactly the files of its list
    that exist, each under its name with its content and in the order of the
    list; a listed file that is missing is left out without an error, and
    nothing outside the list is ever read.  When one listed file exists but
    cannot be read, the whole export answers 500. *)
Theorem export_project_exact (disk : string -> file_state) (now : string) :
  (Exists (fun f => disk f = Unreadable) filesToExport ->
   export_project disk now
   = ExportError 500 "Falha ao gerar pacote do projeto") /\
  (Forall (fun f => disk f <> Unreadable) filesToExport ->
   exists o,
     export_project disk now
     = ExportOk (mkBundle "SafeGuard Backup Pro" "1.0.0" o now) /\
     map fst o = filter (readable disk) filesToExport /\
     forall f content,
       In (f, content) o <-> In f filesToExport /\ disk f = Readable content).
Proof.
  unfold export_project. split.
  - intro H. now rewrite (bundle_files_unreadable disk filesToExport [] H).
  - intro H.
    assert (Hn : NoDup filesToExport).
    { repeat constructor; cbn; intro E;
        repeat (destruct E as [E|E]; [discriminate E|]); exact E. }
    rewrite (bundle_files_readable disk filesToExport [] Hn (fun f _ E => E) H).
    cbn [app]. eexists. split; [reflexivity|]. split; [apply map_fst_entries|].
    intros f content. rewrite in_flat_map. unfold entry. split.
    + intros [g [Hg Hin]]. destruct (disk g) eqn:E; cbn in Hin;
        try contradiction. destruct Hin as [Hin|[]]. inversion Hin; subst.
      auto.
    + intros [Hf E]. exists f. split; [exact Hf|]. rewrite E. now left.
Qed.

(** ** A task that has run cannot be deleted under foreign keys *)

Lemma logged_same_tables (tid : Z) (w w' : world) :
  backup_tasks w' = backup_tasks w -> backup_logs w' = backup_logs w ->
  logged tid w -> logged tid w'.
Proof. unfold logged, has_task. intros -> ->. auto. Qed.

Lemma logged_issue (tid : Z) (s : statement) : maintains (logged tid) (issue s).
Proof.
  intros w H. unfold issue.
  destruct (faulty _); cbn; apply (logged_same_tables tid w); auto.
Qed.

Lemma logged_update (tid : Z) (k : sqlval) (f : Task.t -> Task.t) :
  (forall t, Task.id (f t) = Task.id t) ->
  maintains (logged tid) (update_where k f).
Proof.
  intros Hf w [H1 H2]. split; [|exact H2].
  rewrite <- H1. apply (has_task_update tid k f w Hf).
Qed.

Lemma logged_insert_log (tid tid' : Z) (st msg : string) (rep : option string) :
  maintains (logged tid) (insert_log tid' st msg rep).
Proof.
  apply maintains_bind; [apply logged_issue|]. intros _ w [H1 H2].
  destruct (foreign_keys && negb (has_task tid' w)); cbn; [now split|].
  split; [exact H1|]. cbn. apply Exists_app. now left.
Qed.

Lemma logged_engine (tid : Z) : engine_invariant (logged tid).
Proof.
  constructor.
  - apply logged_issue.
  - intro k. now apply logged_update.
  - intro k. now apply logged_update.
  - intros k c. now apply logged_update.
  - intro task. apply logged_insert_log.
  - intros success task. apply logged_insert_log.
  - intros task w H. apply (logged_same_tables tid w); auto.
  - intros task w H. apply (logged_same_tables tid w); auto.
  - intros rest w H. apply (logged_same_tables tid w); auto.
  - intros c w H. apply (logged_same_tables tid w); auto.
Qed.

(** X16.  With foreign keys enforced, a task that has a log row can no
    longer be deleted: the DELETE throws on the constraint and the route
    answers 500, and as log rows are never removed this holds from the first
    run of the task on, whatever happens later. *)
Theorem logged_task_stays (tid : Z) (es : list event) (w : world) :
  foreign_keys = true ->
  logged tid w ->
  logged tid (run_events es w) /\
  forall id_param,
    matches (SText id_param) tid = true ->
    faulty (List.length (issued (run_events es w))) = false ->
    snd (delete_task_route id_param (run_events es w))
    = Some (json_error 500 "Erro ao excluir tarefa").
Proof.
  intros Hfk H.
  assert (Hd : forall v k, logged tid v -> matches k tid = true ->
                           referenced k v = true).
  { intros v k [H1 H2] Hm. unfold referenced. apply Exists_exists in H2.
    destruct H2 as [l [Hl El]]. apply existsb_exists. exists l.
    split; [exact Hl|]. now rewrite El, Hm, H1. }
  assert (Hl : logged tid (run_events es w)).
  { apply (every_run (logged tid) (logged_engine tid)); [| |exact H].
    - intro n. apply maintains_bind; [apply logged_issue|].
      intros _ v [H1 H2].
      destruct n as [[a|] [b|] [c|] [d|] [e|] f g h]; cbn; try now split.
      split; [|exact H2]. unfold has_task in *. cbn.
      now rewrite existsb_app, H1.
    - intro k. apply maintains_bind; [apply logged_issue|].
      intros _ v Hv. rewrite Hfk. cbn [andb].
      destruct (referenced k v) eqn:Er; cbn; [exact Hv|].
      destruct (matches k tid) eqn:Em.
      + rewrite (Hd v k Hv Em) in Er. discriminate.
      + destruct Hv as [H1 H2]. split; [|exact H2].
        apply has_task_rows. apply has_task_rows in H1. unfold rows_of in *.
        cbn. now rewrite rows_of_filter_other. }
  split; [exact Hl|]. intros id_param Hm Hf.
  rewrite delete_task_route_eq. cbv zeta.
  rewrite Hf, Hfk, (Hd _ _ Hl Hm). reflexivity.
Qed.

(** ** Deleting a task under the foreign key *)

(** The DELETE meets the foreign key exactly when a log row bears the id of
    a stored task that the id matches. *)
Lemma referenced_iff (k : sqlval) (w : world) :
  referenced k w = true <->
  exists t l, In t (backup_tasks w) /\ matches k (Task.id t) = true /\
              In l (backup_logs w) /\ Log.task_id l = Task.id t.
Proof.
  unfold referenced, has_task. rewrite existsb_exists. split.
  - intros [l [Hl H]]. apply andb_true_iff in H. destruct H as [Hm Hh].
    apply existsb_exists in Hh. destruct Hh as [t [Ht Et]].
    apply Z.eqb_eq in Et. exists t, l. rewrite Et. auto.
  - intros [t [l [Ht [Hm [Hl El]]]]]. exists l. split; [exact Hl|].
    rewrite El, Hm. cbn. apply existsb_exists. exists t.
    split; [exact Ht | apply Z.eqb_refl].
Qed.

(** A joined row is among the 50 listed, or 50 rows are listed and none of
    them is older than it. *)
Lemma listed_or_older (w : world) (x : Log.t * string) :
  sorter_ok -> In x (joined w) ->
  In x (firstn 50 (order_by (joined w))) \/
  (List.length (firstn 50 (order_by (joined w))) = 50%nat /\
   forall r, In r (firstn 50 (order_by (joined w))) ->
             Log.timestamp (fst x) <= Log.timestamp (fst r)).
Proof.
  intros Hs Hx. destruct (Hs (joined w)) as [Hperm Hsorted].
  set (full := order_by (joined w)) in *.
  apply (Sorted_StronglySorted newest_first_trans) in Hsorted.
  rewrite <- (firstn_skipn 50 full) in Hsorted.
  apply StronglySorted_app_le in Hsorted. destruct Hsorted as [_ Hle].
  assert (Hj : In x full) by exact (Permutation_in _ (Permutation_sym Hperm) Hx).
  rewrite <- (firstn_skipn 50 full) in Hj. apply in_app_or in Hj.
  destruct Hj as [Hj|Hj]; [now left|]. right. split.
  - apply firstn_length_le.
    destruct (Nat.le_gt_cases 50 (List.length full)) as [L|L]; [exact L|].
    rewrite skipn_all2 in Hj by lia. destruct Hj.
  - intros r Hr. exact (Hle r x Hr Hj).
Qed.

(** C10, as amended.  DELETE /api/tasks/:id never touches the log table and
    never removes or alters a task the id does not match, and it leaves no
    log row without its task.  Under the foreign key, a DELETE that matches a
    stored task owning a log row is refused: the route answers the 500 error,
    the task table is as before, and a later GET /api/logs whose read
    succeeds still lists that row with the task's name, unless 50 rows at
    least as new fill the listing.  The route answers [{success: true}] only
    when no log row belongs to a stored task the id matches; then exactly
    the matching tasks are removed.  With a healthy store and no such log
    row it does answer so. *)
Theorem delete_keeps_logs (id_param : string) (w : world) :
  foreign_keys = true ->
  sorter_ok ->
  backup_logs (fst (delete_task_route id_param w)) = backup_logs w /\
  (forall t, In t (backup_tasks (fst (delete_task_route id_param w))) ->
             In t (backup_tasks w)) /\
  (forall t, In t (backup_tasks w) ->
             matches (SText id_param) (Task.id t) = false ->
             In t (backup_tasks (fst (delete_task_route id_param w)))) /\
  (integrity w -> integrity (fst (delete_task_route id_param w))) /\
  (forall t l,
     In t (backup_tasks w) -> matches (SText id_param) (Task.id t) = true ->
     In l (backup_logs w) -> Log.task_id l = Task.id t ->
     snd (delete_task_route id_param w)
     = Some (json_error 500 "Erro ao excluir tarefa") /\
     backup_tasks (fst (delete_task_route id_param w)) = backup_tasks w /\
     (faulty (List.length (issued (fst (delete_task_route id_param w)))) = false ->
      exists rows,
        snd (get_logs (fst (delete_task_route id_param w)))
        = Some (json_ok (BLogs rows)) /\
        (In (l, Task.name t) rows \/
         (List.length rows = 50%nat /\
          forall r, In r rows -> Log.timestamp l <= Log.timestamp (fst r))))) /\
  (snd (delete_task_route id_param w) = Some (json_ok BSuccess) ->
   (forall t l,
      In t (backup_tasks w) -> matches (SText id_param) (Task.id t) = true ->
      In l (backup_logs w) -> Log.task_id l <> Task.id t) /\
   backup_tasks (fst (delete_task_route id_param w))
   = filter (fun t => negb (matches (SText id_param) (Task.id t)))
            (backup_tasks w) /\
   (forall rows r,
      snd (get_logs (fst (delete_task_route id_param w)))
        = Some (json_ok (BLogs rows)) ->
      In r rows ->
      matches (SText id_param) (Log.task_id (fst r)) = false)) /\
  (faulty (List.length (issued w)) = false ->
   (forall t l,
      In t (backup_tasks w) -> matches (SText id_param) (Task.id t) = true ->
      In l (backup_logs w) -> Log.task_id l <> Task.id t) ->
   snd (delete_task_route id_param w) = Some (json_ok BSuccess)).
Proof.
  intros Hfk Hs.
  assert (Hint : integrity w -> integrity (fst (delete_task_route id_param w))).
  { unfold delete_task_route. apply maintains_try_catch; [|apply maintains_ret].
    apply maintains_bind; [now apply integrity_delete_task|].
    intros _. apply maintains_ret. }
  assert (Hlist : forall t l v,
            In t (backup_tasks w) -> In l (backup_logs w) ->
            Log.task_id l = Task.id t ->
            backup_tasks v = backup_tasks w -> backup_logs v = backup_logs w ->
            faulty (List.length (issued v)) = false ->
            exists rows,
              snd (get_logs v) = Some (json_ok (BLogs rows)) /\
              (In (l, Task.name t) rows \/
               (List.length rows = 50%nat /\
                forall r, In r rows ->
                          Log.timestamp l <= Log.timestamp (fst r)))).
  { intros t l v Ht Hl El Hv1 Hv2 Hg. rewrite (select_logs_healthy v Hg).
    eexists. split; [reflexivity|].
    apply (listed_or_older v (l, Task.name t) Hs). apply in_joined.
    rewrite Hv1, Hv2. split; [exact Hl|]. exists t. auto. }
  pose proof (referenced_iff (SText id_param) w) as Href.
  revert Hint. rewrite delete_task_route_eq. cbv zeta. rewrite Hfk.
  cbn [andb]. intro Hint.
  destruct (faulty (List.length (issued w))) eqn:Hf; cbn [fst snd] in *.
  { split; [reflexivity|]. split; [auto|]. split; [auto|].
    split; [exact Hint|]. split; [|split; [discriminate | discriminate]].
    intros t l Ht Hm Hl El. split; [reflexivity|]. split; [reflexivity|].
    intro Hg. now apply (Hlist t l _ Ht Hl El). }
  destruct (referenced (SText id_param) w) eqn:Hr; cbn [fst snd] in *.
  { split; [reflexivity|]. split; [auto|]. split; [auto|].
    split; [exact Hint|]. split; [|split; [discriminate|]].
    - intros t l Ht Hm Hl El. split; [reflexivity|]. split; [reflexivity|].
      intro Hg. now apply (Hlist t l _ Ht Hl El).
    - intros _ Hno. destruct (proj1 Href eq_refl) as [t [l [Ht [Hm [Hl El]]]]].
      destruct (Hno t l Ht Hm Hl El). }
  assert (Hno : forall t l,
            In t (backup_tasks w) -> matches (SText id_param) (Task.id t) = true ->
            In l (backup_logs w) -> Log.task_id l <> Task.id t).
  { intros t l Ht Hm Hl El.
    assert (E : false = true) by (apply Href; exists t, l; auto).
    discriminate E. }
  split; [reflexivity|]. split; [|split; [|split; [exact Hint|split; [|split]]]].
  - intros t Ht. apply filter_In in Ht. exact (proj1 Ht).
  - intros t Ht Hm. apply filter_In. split; [exact Ht|]. now rewrite Hm.
  - intros t l Ht Hm Hl El. destruct (Hno t l Ht Hm Hl El).
  - intros _. split; [exact Hno|]. split; [reflexivity|].
    intros rows [l n] Hrows Hin.
    match type of Hrows with
    | snd (get_logs ?v) = _ =>
        destruct (faulty (List.length (issued v))) eqn:Hg;
        [rewrite (select_logs_faulty v Hg) in Hrows; discriminate
        |rewrite (select_logs_healthy v Hg) in Hrows;
         destruct (Hs (joined v)) as [Hperm _];
         assert (E : rows = firstn 50 (order_by (joined v)))
           by (unfold json_ok in Hrows; cbn [snd] in Hrows; congruence)]
    end.
    rewrite E in Hin. apply in_firstn in Hin.
    apply (Permutation_in _ Hperm) in Hin. apply in_joined in Hin.
    destruct Hin as [_ [t [Ht [Eid _]]]]. cbn in Ht.
    apply filter_In in Ht. destruct Ht as [_ Ht].
    apply negb_true_iff in Ht. cbn [fst]. now rewrite <- Eid.
  - intros _ _. reflexivity.
Qed.

End Server.


Lemma insert_row_perm (r : Log.t * string) (l : list (Log.t * string)) :
  Permutation (insert_row r l) (r :: l).
Proof.
  induction l as [|x l IH]; cbn; [reflexivity|].
  destruct (newer r x); [reflexivity|].
  rewrite IH. apply perm_swap.
Qed.

Lemma insert_row_sorted (r : Log.t * string) (l : list (Log.t * string)) :
  Sorted newest_first l -> Sorted newest_first (insert_row r l).
Proof.
  induction l as [|x l IH]; cbn; intro H; [repeat constructor|].
  unfold newer. destruct (Z.leb_spec (Log.timestamp (fst x)) (Log.timestamp (fst r))).
  - constructor; [exact H|]. constructor. exact H0.
  - inversion H as [|? ? Hs Hhd]; subst. constructor; [apply IH, Hs|].
    destruct l as [|y l]; cbn.
    + constructor. unfold newest_first. lia.
    + destruct (newer r y); constructor.
      * unfold newest_first. lia.
      * now inversion Hhd.
Qed.

(** The reference sorter does what SQL asks of a sorter. *)
Lemma sort_rows_ok : sorter_ok sort_rows.
Proof.
  intro l. unfold sort_rows. induction l as [|r l [IHp IHs]]; cbn.
  - split; constructor.
  - split.
    + rewrite insert_row_perm. now constructor.
    + now apply insert_row_sorted.
Qed.

(** * The server at work on the reference instances *)

(** The scenarios of the scheduler: both tasks are due on Monday at 09:00,
    none a minute later, and only the nightly one on Thursday. *)
Example tick_monday_0900 :
  dispatched parse_days decimal_id true healthy "Monday" "09:00" office
  = [nightly; weekly].
Proof. reflexivity. Qed.

Example tick_monday_0901 :
  dispatched parse_days decimal_id true healthy "Monday" "09:01" office = [].
Proof. reflexivity. Qed.

Example tick_thursday_0900 :
  dispatched parse_days decimal_id true healthy "Thursday" "09:00" office
  = [nightly].
Proof. reflexivity. Qed.

(** Two tasks of one schedule: one tick dispatches both, and each gets its
    own INICIADO row and terminal row and ends IDLE. *)
Example tick_runs_both_tasks :
  let w := run_events parse_days decimal_id true sort_rows healthy
             [Tick "Monday" "09:00"; Elapse 4; TimerFires true; TimerFires false]
             office in
  map (fun l => (Log.id l, Log.task_id l, Log.status l)) (backup_logs w)
  = [(1, 1, "INICIADO"); (2, 2, "INICIADO"); (3, 1, "SUCESSO"); (4, 2, "FALHA")] /\
  map (fun t => (Task.id t, Task.status t, Task.last_run t)) (backup_tasks w)
  = [(1, "IDLE", Some 1004); (2, "IDLE", Some 1004)] /\
  pending w = [].
Proof. repeat split. Qed.

(** [archive] is what one run makes of [office], six seconds before. *)
Example archive_is_a_run_later :
  with_clock 1010
    (with_pending []
       (with_issued []
          (with_invoked []
             (fst (runBackup decimal_id true healthy true four_seconds
                             nightly office)))))
  = archive.
Proof. reflexivity. Qed.

Lemma office_ids (k : sqlval) :
  matches decimal_id k 1 = false ->
  matches decimal_id k 2 = false ->
  forall t, In t (backup_tasks office) -> matches decimal_id k (Task.id t) = false.
Proof.
  intros H1 H2 t [<-|[<-|[]]]; assumption.
Qed.

(** C1 at work: the nightly task of the office, a failed draw, with nothing
    else going on. *)
Lemma runBackup_leaves_idle_office :
  run_threw decimal_id true healthy false four_seconds nightly office = false /\
  has_task 1 (four_seconds (at_await decimal_id true healthy nightly office)) = true /\
  clock office <= clock (four_seconds (at_await decimal_id true healthy nightly office)) /\
  snd (runBackup decimal_id true healthy false four_seconds nightly office) = Some tt /\
  rows_of 1 (fst (runBackup decimal_id true healthy false four_seconds nightly office)) <> [] /\
  Forall (fun t => Task.status t = "IDLE" /\
                   exists ts, Task.last_run t = Some ts /\ clock office <= ts)
         (rows_of 1 (fst (runBackup decimal_id true healthy false four_seconds
                                    nightly office))).
Proof.
  assert (H1 : run_threw decimal_id true healthy false four_seconds nightly office
               = false) by reflexivity.
  assert (H2 : has_task (Task.id nightly)
                 (four_seconds (at_await decimal_id true healthy nightly office))
               = true) by reflexivity.
  assert (H3 : clock office
               <= clock (four_seconds (at_await decimal_id true healthy nightly office)))
    by (vm_compute; discriminate).
  exact (conj H1 (conj H2 (conj H3
           (runBackup_leaves_idle decimal_id true healthy false four_seconds
              nightly office H1 H2 H3)))).
Defined.





(** C4 as stated fails.  In the shop the weekly task is stored, sound and
    due on Monday at 09:00, yet the tick dispatches nothing: the broken
    task stored before it makes line 162 throw, and the loop is over. *)
Lemma tick_abandons_later_tasks :
  In weekly (backup_tasks shop) /\
  is_due parse_days "Monday" "09:00" weekly = Some true /\
  is_due parse_days "Monday" "09:00" broken = None /\
  dispatched parse_days decimal_id true healthy "Monday" "09:00" shop = [] /\
  ~ In weekly (dispatched parse_days decimal_id true healthy "Monday" "09:00" shop).
Proof.
  split; [right; now left|]. split; [reflexivity|]. split; [reflexivity|].
  split; [reflexivity|]. intros [].
Qed.

(** C5 at work: the INSERT of the INICIADO row throws, the reset goes
    through. *)
Lemma runBackup_resets_on_error_office :
  run_threw decimal_id true (fails_at 1) true four_seconds nightly office = true /\
  snd (runBackup decimal_id true (fails_at 1) true four_seconds nightly office)
  = Some tt /\
  exists before,
    issued (fst (runBackup decimal_id true (fails_at 1) true four_seconds
                           nightly office))
      = before ++ [UpdateIdle (SInt (Task.id nightly))] /\
    (fails_at 1 (List.length before) = false ->
     Forall (fun t => Task.status t = "IDLE")
            (rows_of (Task.id nightly)
               (fst (runBackup decimal_id true (fails_at 1) true four_seconds
                               nightly office)))) /\
    (fails_at 1 (List.length before) = true ->
     (threw (start_body decimal_id true (fails_at 1) nightly)
            (fst (note_call nightly office)) = true ->
      pending (fst (runBackup decimal_id true (fails_at 1) true four_seconds
                              nightly office)) = pending office /\
      (fails_at 1 (List.length (issued office)) = true ->
       backup_tasks (fst (runBackup decimal_id true (fails_at 1) true
                                    four_seconds nightly office))
       = backup_tasks office) /\
      (fails_at 1 (List.length (issued office)) = false ->
       Forall (fun t => Task.status t = "RUNNING")
              (rows_of (Task.id nightly)
                 (fst (runBackup decimal_id true (fails_at 1) true four_seconds
                                 nightly office))))) /\
     (threw (start_body decimal_id true (fails_at 1) nightly)
            (fst (note_call nightly office)) = false ->
      backup_tasks (fst (runBackup decimal_id true (fails_at 1) true
                                   four_seconds nightly office))
      = backup_tasks (four_seconds
                        (at_await decimal_id true (fails_at 1) nightly office)))).
Proof.
  assert (H : run_threw decimal_id true (fails_at 1) true four_seconds
                        nightly office = true) by reflexivity.
  exact (conj H (runBackup_resets_on_error decimal_id true (fails_at 1) true
                   four_seconds nightly office H)).
Defined.

(** The same run, spelled out: the reset is the third statement, and the
    nightly task is IDLE at the end. *)
Example reset_goes_through :
  issued (fst (runBackup decimal_id true (fails_at 1) true four_seconds
                         nightly office))
  = [UpdateRunning (SInt 1);
     InsertLog 1 "INICIADO" "Processo de backup iniciado para /srv/data" None;
     UpdateIdle (SInt 1)] /\
  map Task.status
      (rows_of 1 (fst (runBackup decimal_id true (fails_at 1) true four_seconds
                                 nightly office)))
  = ["IDLE"].
Proof. split; reflexivity. Qed.

(** C5 as stated fails.  When the store keeps failing from the INSERT of
    the INICIADO row on, the reset throws too and is dropped: the run of the
    on-demand task has ended, no timer is armed, and the task is RUNNING.
    It stays RUNNING through every later tick, timer, listing and creation
    of a task, whatever the store does then: only a request to run it again
    or to delete it can change that. *)
Lemma runBackup_leaves_running :
  snd (runBackup decimal_id true (fails_from 1) true four_seconds on_demand desk)
  = Some tt /\
  issued (fst (runBackup decimal_id true (fails_from 1) true four_seconds
                         on_demand desk))
  = [UpdateRunning (SInt 1);
     InsertLog 1 "INICIADO" "Processo de backup iniciado para /srv/cad" None;
     UpdateIdle (SInt 1)] /\
  pending (fst (runBackup decimal_id true (fails_from 1) true four_seconds
                          on_demand desk)) = [] /\
  map Task.status
      (rows_of 1 (fst (runBackup decimal_id true (fails_from 1) true four_seconds
                                 on_demand desk)))
  = ["RUNNING"] /\
  (forall (later : nat -> bool) (es : list event),
     Forall no_run_no_delete es ->
     Forall (fun t => Task.status t = "RUNNING")
            (rows_of 1 (run_events parse_days decimal_id true sort_rows later es
                          (fst (runBackup decimal_id true (fails_from 1) true
                                          four_seconds on_demand desk))))).
Proof.
  split; [reflexivity|]. split; [reflexivity|]. split; [reflexivity|].
  split; [reflexivity|]. intros later es Hes.
  assert (Hs : stuck parse_days 1
                 (fst (runBackup decimal_id true (fails_from 1) true four_seconds
                                 on_demand desk))).
  { constructor.
    - vm_compute. repeat constructor.
    - reflexivity.
    - vm_compute. constructor.
    - vm_compute. discriminate. }
  assert (Ha : Forall (leaves_alone decimal_id 1) es).
  { eapply Forall_impl; [|exact Hes]. intros [] He; cbn in *; tauto. }
  pose proof (stuck_forever parse_days decimal_id true sort_rows later 1 es _ Ha Hs)
    as [Hrows _ _ _].
  eapply Forall_impl; [|exact Hrows]. intros t [Ht _]. exact Ht.
Qed.

(** C6 at work: no task of the office has id 999. *)
Lemma run_unknown_task_office :
  (forall t, In t (backup_tasks office) ->
             matches decimal_id (SText "999") (Task.id t) = false) /\
  snd (run_task_route decimal_id true healthy "999" office)
    = Some (if healthy (List.length (issued office))
            then json_error 500 "Erro ao disparar backup"
            else json_error 404 "Tarefa não encontrada") /\
  backup_tasks (fst (run_task_route decimal_id true healthy "999" office))
  = backup_tasks office /\
  backup_logs (fst (run_task_route decimal_id true healthy "999" office))
  = backup_logs office /\
  appended office (fst (run_task_route decimal_id true healthy "999" office)) = [] /\
  invoked (fst (run_task_route decimal_id true healthy "999" office))
  = invoked office /\
  pending (fst (run_task_route decimal_id true healthy "999" office))
  = pending office.
Proof.
  assert (H : forall t, In t (backup_tasks office) ->
                        matches decimal_id (SText "999") (Task.id t) = false)
    by (apply office_ids; reflexivity).
  exact (conj H (run_unknown_task decimal_id true healthy "999" office H)).
Defined.

(** C7: DELETE /api/tasks/999 at the office, where no task has id 999,
    answers 200 with [{success: true}] and changes neither table, with or
    without foreign-key enforcement; POST /api/tasks/999/run answers 404
    there. *)
Lemma delete_unknown_task_answers_success (fk : bool) :
  find (fun t => matches decimal_id (SText "999") (Task.id t))
       (backup_tasks office) = None /\
  snd (delete_task_route decimal_id fk healthy "999" office)
  = Some (mkResponse 200 BSuccess) /\
  backup_tasks (fst (delete_task_route decimal_id fk healthy "999" office))
  = backup_tasks office /\
  backup_logs (fst (delete_task_route decimal_id fk healthy "999" office))
  = backup_logs office /\
  snd (run_task_route decimal_id fk healthy "999" office)
  = Some (mkResponse 404 (BError "Tarefa não encontrada")).
Proof. destruct fk; repeat split. Qed.

(** C8 at work: the timer of a run of the nightly task fires four seconds
    after the call, the draw is a failure. *)
Lemma report_of_run_office :
  healthy (List.length (issued (four_seconds
             (at_await decimal_id true healthy nightly office)))) = false /\
  (true = true ->
   has_task (Task.id nightly)
            (four_seconds (at_await decimal_id true healthy nightly office))
   = true) /\
  exists l,
    appended (four_seconds (at_await decimal_id true healthy nightly office))
             (fst (runBackup_resume decimal_id true healthy false nightly
                     (four_seconds
                        (at_await decimal_id true healthy nightly office))))
    = [l] /\
    Log.task_id l = Task.id nightly /\
    Log.status l = run_status false /\
    Log.report l = Some (JSON_stringify (mockFiles false)).
Proof.
  assert (H1 : healthy (List.length (issued (four_seconds
                  (at_await decimal_id true healthy nightly office)))) = false)
    by reflexivity.
  assert (H2 : true = true ->
               has_task (Task.id nightly)
                 (four_seconds (at_await decimal_id true healthy nightly office))
               = true) by (intros _; reflexivity).
  exact (conj H1 (conj H2
           (proj1 (report_of_run decimal_id true healthy false nightly
                     (four_seconds
                        (at_await decimal_id true healthy nightly office)))
                  H1 H2))).
Defined.

(** The same row, spelled out, and the row of a successful draw. *)
Example failed_run_row :
  appended (four_seconds (at_await decimal_id true healthy nightly office))
           (fst (runBackup_resume decimal_id true healthy false nightly
                   (four_seconds
                      (at_await decimal_id true healthy nightly office))))
  = [Log.mk 2 1 1004 "FALHA" "Falha ao acessar NAS em //nas/vault"
       (Some (requote "[{'name':'documento_v1.pdf','size':'2.4MB','status':'OK'},{'name':'planilha_financeira.xlsx','size':'1.1MB','status':'OK'},{'name':'foto_backup.jpg','size':'4.8MB','status':'ERRO'},{'name':'projeto_final.zip','size':'156MB','status':'ERRO'}]"))] /\
  appended (four_seconds (at_await decimal_id true healthy nightly office))
           (fst (runBackup_resume decimal_id true healthy true nightly
                   (four_seconds
                      (at_await decimal_id true healthy nightly office))))
  = [Log.mk 2 1 1004 "SUCESSO" "Backup concluído com sucesso para //nas/vault"
       (Some (requote "[{'name':'documento_v1.pdf','size':'2.4MB','status':'OK'},{'name':'planilha_financeira.xlsx','size':'1.1MB','status':'OK'},{'name':'foto_backup.jpg','size':'4.8MB','status':'OK'},{'name':'projeto_final.zip','size':'156MB','status':'OK'}]"))].
Proof. split; reflexivity. Qed.

(** C9 at work: the listing of the archive. *)
Lemma get_logs_latest_archive :
  sorter_ok sort_rows /\
  healthy (List.length (issued archive)) = false /\
  exists rows,
    snd (get_logs sort_rows healthy archive) = Some (json_ok (BLogs rows)) /\
    (List.length rows <= 50)%nat /\
    StronglySorted newest_first rows /\
    (forall l n, In (l, n) rows ->
       In l (backup_logs archive) /\
       exists t, In t (backup_tasks archive) /\
                 Task.id t = Log.task_id l /\ Task.name t = n) /\
    (forall l t, In l (backup_logs archive) -> In t (backup_tasks archive) ->
       Task.id t = Log.task_id l ->
       In (l, Task.name t) rows \/
       (List.length rows = 50%nat /\
        forall r, In r rows -> Log.timestamp l <= Log.timestamp (fst r))) /\
    (integrity archive ->
     forall l, In l (backup_logs archive) ->
       (exists n, In (l, n) rows) \/
       (List.length rows = 50%nat /\
        forall r, In r rows -> Log.timestamp l <= Log.timestamp (fst r))) /\
    List.length rows = Nat.min 50 (List.length (joined archive)) /\
    exists full,
      Permutation full (joined archive) /\ StronglySorted newest_first full /\
      rows = firstn 50 full.
Proof.
  assert (H : healthy (List.length (issued archive)) = false) by reflexivity.
  exact (conj sort_rows_ok (conj H
           (get_logs_latest sort_rows healthy archive sort_rows_ok H))).
Defined.

(** The listing of the archive, spelled out: the SUCESSO row first. *)
Example get_logs_archive :
  snd (get_logs sort_rows healthy archive)
  = Some (json_ok (BLogs
      [(Log.mk 2 1 1004 "SUCESSO" "Backup concluído com sucesso para //nas/vault"
               (Some (JSON_stringify (mockFiles true))), "Nightly");
       (Log.mk 1 1 1000 "INICIADO" "Processo de backup iniciado para /srv/data"
               None, "Nightly")])).
Proof. reflexivity. Qed.

(** C10 at work: a request to delete the nightly task of the archive, which
    owns two log rows, under the foreign key. *)
Lemma delete_keeps_logs_archive :
  true = true /\
  sorter_ok sort_rows /\
  backup_logs (fst (delete_task_route decimal_id true healthy "1" archive))
  = backup_logs archive /\
  (forall t, In t (backup_tasks (fst (delete_task_route decimal_id true healthy
                                        "1" archive))) ->
             In t (backup_tasks archive)) /\
  (forall t, In t (backup_tasks archive) ->
             matches decimal_id (SText "1") (Task.id t) = false ->
             In t (backup_tasks (fst (delete_task_route decimal_id true healthy
                                        "1" archive)))) /\
  (integrity archive ->
   integrity (fst (delete_task_route decimal_id true healthy "1" archive))) /\
  (forall t l,
     In t (backup_tasks archive) ->
     matches decimal_id (SText "1") (Task.id t) = true ->
     In l (backup_logs archive) -> Log.task_id l = Task.id t ->
     snd (delete_task_route decimal_id true healthy "1" archive)
     = Some (json_error 500 "Erro ao excluir tarefa") /\
     backup_tasks (fst (delete_task_route decimal_id true healthy "1" archive))
     = backup_tasks archive /\
     (healthy (List.length (issued (fst (delete_task_route decimal_id true healthy
                                           "1" archive)))) = false ->
      exists rows,
        snd (get_logs sort_rows healthy
               (fst (delete_task_route decimal_id true healthy "1" archive)))
        = Some (json_ok (BLogs rows)) /\
        (In (l, Task.name t) rows \/
         (List.length rows = 50%nat /\
          forall r, In r rows -> Log.timestamp l <= Log.timestamp (fst r))))) /\
  (snd (delete_task_route decimal_id true healthy "1" archive)
   = Some (json_ok BSuccess) ->
   (forall t l,
      In t (backup_tasks archive) ->
      matches decimal_id (SText "1") (Task.id t) = true ->
      In l (backup_logs archive) -> Log.task_id l <> Task.id t) /\
   backup_tasks (fst (delete_task_route decimal_id true healthy "1" archive))
   = filter (fun t => negb (matches decimal_id (SText "1") (Task.id t)))
            (backup_tasks archive) /\
   (forall rows r,
      snd (get_logs sort_rows healthy
             (fst (delete_task_route decimal_id true healthy "1" archive)))
        = Some (json_ok (BLogs rows)) ->
      In r rows ->
      matches decimal_id (SText "1") (Log.task_id (fst r)) = false)) /\
  (healthy (List.length (issued archive)) = false ->
   (forall t l,
      In t (backup_tasks archive) ->
      matches decimal_id (SText "1") (Task.id t) = true ->
      In l (backup_logs archive) -> Log.task_id l <> Task.id t) ->
   snd (delete_task_route decimal_id true healthy "1" archive)
   = Some (json_ok BSuccess)).
Proof.
  exact (conj eq_refl (conj sort_rows_ok
           (delete_keeps_logs decimal_id true sort_rows healthy "1" archive
              eq_refl sort_rows_ok))).
Defined.

(** C10 as stated fails.  The nightly task of the archive owns two log rows.
    The request to delete it answers the 500 error; the task row is not
    removed, no log row is orphaned, and the GET /api/logs that follows
    lists both rows of the task as before. *)
Lemma delete_of_logged_task_refused :
  snd (delete_task_route decimal_id true healthy "1" archive)
  = Some (json_error 500 "Erro ao excluir tarefa") /\
  backup_tasks (fst (delete_task_route decimal_id true healthy "1" archive))
  = backup_tasks archive /\
  map Task.id
      (backup_tasks (fst (delete_task_route decimal_id true healthy "1" archive)))
  = [1; 2] /\
  backup_logs (fst (delete_task_route decimal_id true healthy "1" archive))
  = backup_logs archive /\
  snd (get_logs sort_rows healthy
         (fst (delete_task_route decimal_id true healthy "1" archive)))
  = Some (json_ok (BLogs
      [(Log.mk 2 1 1004 "SUCESSO" "Backup concluído com sucesso para //nas/vault"
               (Some (JSON_stringify (mockFiles true))), "Nightly");
       (Log.mk 1 1 1000 "INICIADO" "Processo de backup iniciado para /srv/data"
               None, "Nightly")])) /\
  snd (get_logs sort_rows healthy
         (fst (delete_task_route decimal_id true healthy "1" archive)))
  = snd (get_logs sort_rows healthy archive).
Proof. repeat split. Qed.

(** The same delete, spelled out.  Without foreign-key enforcement the task
    row goes, its two log rows stay and the listing is empty; with it the
    DELETE throws, the route answers 500 and the task stays. *)
Example delete_nightly_from_archive :
  map Task.id (backup_tasks (fst (delete_task_route decimal_id false healthy
                                    "1" archive))) = [2] /\
  backup_logs (fst (delete_task_route decimal_id false healthy "1" archive))
  = backup_logs archive /\
  snd (get_logs sort_rows healthy
         (fst (delete_task_route decimal_id false healthy "1" archive)))
  = Some (json_ok (BLogs [])) /\
  snd (delete_task_route decimal_id true healthy "1" archive)
  = Some (json_error 500 "Erro ao excluir tarefa") /\
  backup_tasks (fst (delete_task_route decimal_id true healthy "1" archive))
  = backup_tasks archive.
Proof. repeat split. Qed.

(** * More of the server at work *)

(** [busy] is what two requests and four seconds make of [office]. *)
Example busy_is_two_runs :
  with_issued []
    (with_invoked []
       (run_events parse_days decimal_id true sort_rows healthy
                   [RunTask "1"; RunTask "1"; Elapse 4] office))
  = busy.
Proof. reflexivity. Qed.

Lemma office_keyed : keyed office.
Proof.
  constructor; cbn; repeat constructor; cbn; lia.
Qed.

(** X1 at work: a day at the office, with a tick, a creation, a manual
    run, the timers, a deletion and the listings. *)
Lemma ids_stay_unique_office :
  keyed office /\
  keyed (run_events parse_days decimal_id true sort_rows healthy
     [Tick "Monday" "09:00"; PostTask complete_task; RunTask "3"; Elapse 5;
      TimerFires true; TimerFires false; TimerFires true;
      DeleteTaskById "2"; GetTasks; GetLogs] office) /\
  NoDup (map Task.id (backup_tasks
    (run_events parse_days decimal_id true sort_rows healthy
     [Tick "Monday" "09:00"; PostTask complete_task; RunTask "3"; Elapse 5;
      TimerFires true; TimerFires false; TimerFires true;
      DeleteTaskById "2"; GetTasks; GetLogs] office))) /\
  NoDup (map Log.id (backup_logs
    (run_events parse_days decimal_id true sort_rows healthy
     [Tick "Monday" "09:00"; PostTask complete_task; RunTask "3"; Elapse 5;
      TimerFires true; TimerFires false; TimerFires true;
      DeleteTaskById "2"; GetTasks; GetLogs] office))) /\
  seq_tasks office
  <= seq_tasks
    (run_events parse_days decimal_id true sort_rows healthy
     [Tick "Monday" "09:00"; PostTask complete_task; RunTask "3"; Elapse 5;
      TimerFires true; TimerFires false; TimerFires true;
      DeleteTaskById "2"; GetTasks; GetLogs] office).
Proof.
  exact (conj office_keyed
           (ids_stay_unique parse_days decimal_id true sort_rows healthy
              [Tick "Monday" "09:00"; PostTask complete_task; RunTask "3"; Elapse 5;
      TimerFires true; TimerFires false; TimerFires true;
      DeleteTaskById "2"; GetTasks; GetLogs] office office_keyed)).
Defined.

(** X2 at work: the same day, the fourth statement failing. *)
Lemma tables_stay_well_formed_office :
  well_formed office /\
  well_formed
    (run_events parse_days decimal_id true sort_rows (fails_at 3)
     [Tick "Monday" "09:00"; PostTask complete_task; RunTask "3"; Elapse 5;
      TimerFires true; TimerFires false; TimerFires true;
      DeleteTaskById "2"; GetTasks; GetLogs] office).
Proof.
  assert (H : well_formed office).
  { split; cbn; repeat constructor; auto. }
  exact (conj H (tables_stay_well_formed parse_days decimal_id true sort_rows
                   (fails_at 3)
     [Tick "Monday" "09:00"; PostTask complete_task; RunTask "3"; Elapse 5;
      TimerFires true; TimerFires false; TimerFires true;
      DeleteTaskById "2"; GetTasks; GetLogs] office H)).
Defined.

(** X3 at work: a day without creation or deletion. *)
Lemma engine_keeps_definitions_office :
  Forall engine_event
     [Tick "Monday" "09:00"; RunTask "2"; Elapse 5; TimerFires true;
      TimerFires false; TimerFires true; GetTasks; GetLogs] /\
  map definition (backup_tasks
    (run_events parse_days decimal_id true sort_rows (fails_at 3)
     [Tick "Monday" "09:00"; RunTask "2"; Elapse 5; TimerFires true;
      TimerFires false; TimerFires true; GetTasks; GetLogs] office))
  = map definition (backup_tasks office).
Proof.
  assert (H : Forall engine_event
     [Tick "Monday" "09:00"; RunTask "2"; Elapse 5; TimerFires true;
      TimerFires false; TimerFires true; GetTasks; GetLogs])
    by (repeat constructor).
  exact (conj H (engine_keeps_definitions parse_days decimal_id true sort_rows
                   (fails_at 3)
     [Tick "Monday" "09:00"; RunTask "2"; Elapse 5; TimerFires true;
      TimerFires false; TimerFires true; GetTasks; GetLogs] office H)).
Defined.

(** X4 at work: a task of photos is created at the office. *)
Lemma post_task_then_listed_office :
  keyed office /\
  healthy (List.length (issued office)) = false /\
  healthy (S (List.length (issued office))) = false /\
  snd (post_task healthy complete_task office)
  = Some (json_ok (BId (seq_tasks office + 1))) /\
  ~ In (seq_tasks office + 1) (map Task.id (backup_tasks office)) /\
  snd (get_tasks healthy (fst (post_task healthy complete_task office)))
  = Some (json_ok (BTasks
       (backup_tasks office ++
          [Task.mk (seq_tasks office + 1) "Photos" "/srv/photos" "//nas/photos"
                   "NAS" "FULL" (Some (days_json ["Friday"])) (Some "23:30")
                   None "IDLE" (if true then 1 else 0)]))) /\
  backup_logs (fst (post_task healthy complete_task office)) = backup_logs office.
Proof.
  assert (H0 : healthy (List.length (issued office)) = false) by reflexivity.
  assert (H1 : healthy (S (List.length (issued office))) = false) by reflexivity.
  exact (conj office_keyed (conj H0 (conj H1
           (post_task_then_listed healthy "Photos" "/srv/photos" "//nas/photos"
              "NAS" "FULL" (Some (days_json ["Friday"])) (Some "23:30") true
              office office_keyed H0 H1)))).
Defined.

(** X5 at work: the same task without a name. *)
Lemma post_task_rejects_null_office :
  (new_name nameless_task = None \/ new_source_path nameless_task = None \/
   new_destination_path nameless_task = None \/
   new_destination_type nameless_task = None \/
   new_backup_type nameless_task = None) /\
  snd (post_task healthy nameless_task office)
  = Some (json_error 500 "Erro ao criar tarefa") /\
  backup_tasks (fst (post_task healthy nameless_task office))
  = backup_tasks office /\
  backup_logs (fst (post_task healthy nameless_task office))
  = backup_logs office /\
  seq_tasks (fst (post_task healthy nameless_task office)) = seq_tasks office.
Proof.
  assert (H : new_name nameless_task = None \/
              new_source_path nameless_task = None \/
              new_destination_path nameless_task = None \/
              new_destination_type nameless_task = None \/
              new_backup_type nameless_task = None) by (left; reflexivity).
  exact (conj H (post_task_rejects_null healthy nameless_task office H)).
Defined.

(** X6 at work: the task of photos is created and deleted, foreign keys
    enforced. *)
Lemma post_then_delete_office :
  keyed office /\
  decimal_id "3" = Some (seq_tasks office + 1) /\
  Forall (fun l => Log.task_id l <> seq_tasks office + 1) (backup_logs office) /\
  healthy (List.length (issued office)) = false /\
  healthy (S (List.length (issued office))) = false /\
  snd (delete_task_route decimal_id true healthy "3"
         (fst (post_task healthy
                 (mkNew (Some "Photos") (Some "/srv/photos") (Some "//nas/photos")
                        (Some "NAS") (Some "FULL") None None false) office)))
  = Some (json_ok BSuccess) /\
  backup_tasks
    (fst (delete_task_route decimal_id true healthy "3"
            (fst (post_task healthy
                    (mkNew (Some "Photos") (Some "/srv/photos")
                           (Some "//nas/photos") (Some "NAS") (Some "FULL")
                           None None false) office))))
  = backup_tasks office /\
  seq_tasks
    (fst (delete_task_route decimal_id true healthy "3"
            (fst (post_task healthy
                    (mkNew (Some "Photos") (Some "/srv/photos")
                           (Some "//nas/photos") (Some "NAS") (Some "FULL")
                           None None false) office))))
  = seq_tasks office + 1.
Proof.
  assert (H1 : decimal_id "3" = Some (seq_tasks office + 1)) by reflexivity.
  assert (H2 : Forall (fun l => Log.task_id l <> seq_tasks office + 1)
                      (backup_logs office)) by constructor.
  assert (H3 : healthy (List.length (issued office)) = false) by reflexivity.
  assert (H4 : healthy (S (List.length (issued office))) = false) by reflexivity.
  exact (conj office_keyed (conj H1 (conj H2 (conj H3 (conj H4
           (post_then_delete decimal_id true healthy "Photos" "/srv/photos"
              "//nas/photos" "NAS" "FULL" "3" None None false office
              office_keyed H1 H2 H3 H4)))))).
Defined.

(** X7 at work: the weekly task is run by hand while the store fails on
    every statement after the SELECT. *)
Lemma run_known_task_office :
  fails_from 1 (List.length (issued office)) = false /\
  find (fun t => matches decimal_id (SText "2") (Task.id t)) (backup_tasks office)
  = Some weekly /\
  snd (run_task_route decimal_id true (fails_from 1) "2" office)
  = Some (json_ok BSuccess) /\
  invoked (fst (run_task_route decimal_id true (fails_from 1) "2" office))
  = invoked office ++ [weekly].
Proof.
  assert (H1 : fails_from 1 (List.length (issued office)) = false) by reflexivity.
  assert (H2 : find (fun t => matches decimal_id (SText "2") (Task.id t))
                    (backup_tasks office) = Some weekly) by reflexivity.
  exact (conj H1 (conj H2
           (run_known_task decimal_id true (fails_from 1) "2" weekly office H1 H2))).
Defined.

(** X9 at work: the first of the two runs of [busy] finishes. *)
Lemma first_finisher_marks_idle_busy :
  pending busy = (1000, nightly) :: [(1000, set_status "RUNNING" nightly)] /\
  1000 + 4 <= clock busy /\
  In (1000, set_status "RUNNING" nightly) [(1000, set_status "RUNNING" nightly)] /\
  Task.id (snd (1000, set_status "RUNNING" nightly)) = Task.id nightly /\
  has_task (Task.id nightly) busy = true /\
  threw (resume_body decimal_id true healthy true nightly)
        (with_pending [(1000, set_status "RUNNING" nightly)] busy) = false /\
  In (1000, set_status "RUNNING" nightly)
     (pending (fst (fire decimal_id true healthy true busy))) /\
  rows_of (Task.id nightly) (fst (fire decimal_id true healthy true busy)) <> [] /\
  Forall (fun t => Task.status t = "IDLE")
         (rows_of (Task.id nightly) (fst (fire decimal_id true healthy true busy))).
Proof.
  assert (H1 : pending busy
               = (1000, nightly) :: [(1000, set_status "RUNNING" nightly)])
    by reflexivity.
  assert (H2 : 1000 + 4 <= clock busy) by (vm_compute; discriminate).
  assert (H3 : In (1000, set_status "RUNNING" nightly)
                  [(1000, set_status "RUNNING" nightly)]) by (left; reflexivity).
  assert (H4 : Task.id (snd (1000, set_status "RUNNING" nightly))
               = Task.id nightly) by reflexivity.
  assert (H5 : has_task (Task.id nightly) busy = true) by reflexivity.
  assert (H6 : threw (resume_body decimal_id true healthy true nightly)
                     (with_pending [(1000, set_status "RUNNING" nightly)] busy)
               = false) by reflexivity.
  exact (conj H1 (conj H2 (conj H3 (conj H4 (conj H5 (conj H6
           (first_finisher_marks_idle decimal_id true healthy true busy 1000
              nightly [(1000, set_status "RUNNING" nightly)]
              (1000, set_status "RUNNING" nightly) H1 H2 H3 H4 H5 H6))))))).
Defined.

(** X10 at work: a task stored with neither days nor a time. *)
Lemma unscheduled_never_due_monday :
  parse_days "[]" = Some (JArr []) /\
  (Task.schedule_days unscheduled = None \/
   Task.schedule_days unscheduled = Some EmptyString ->
   is_due parse_days "Monday" "09:00" unscheduled = Some false) /\
  (Task.schedule_time unscheduled = None ->
   due parse_days "Monday" "09:00" unscheduled = false).
Proof.
  assert (H : parse_days "[]" = Some (JArr [])) by reflexivity.
  exact (conj H (unscheduled_never_due parse_days "Monday" "09:00"
                   unscheduled H)).
Defined.

(** X12 at work: the form's task, whose days read Tuesday in Portuguese,
    is not due on Tuesday. *)
Lemma form_task_never_due_tuesday :
  Forall (fun c => In c DAYS) ["Segunda-feira"; "Terça-feira"; "Segunda-feira"] /\
  Task.schedule_days form_task
  = Some (days_json (click_days ["Segunda-feira"; "Terça-feira"; "Segunda-feira"])) /\
  parse_days (days_json (click_days ["Segunda-feira"; "Terça-feira"; "Segunda-feira"]))
  = Some (JArr (map JStr (click_days
                            ["Segunda-feira"; "Terça-feira"; "Segunda-feira"]))) /\
  (forall day time,
     ~ In day DAYS \/ In day weekdays_en ->
     is_due parse_days day time form_task = Some false) /\
  click_days ["Segunda-feira"; "Terça-feira"; "Segunda-feira"] = ["Terça-feira"] /\
  is_due parse_days "Tuesday" "09:00" form_task = Some false.
Proof.
  assert (H1 : Forall (fun c => In c DAYS)
                      ["Segunda-feira"; "Terça-feira"; "Segunda-feira"]).
  { apply Forall_forall. intros c [<-|[<-|[<-|[]]]]; cbn; auto 10. }
  assert (H2 : Task.schedule_days form_task
               = Some (days_json (click_days
                         ["Segunda-feira"; "Terça-feira"; "Segunda-feira"])))
    by reflexivity.
  assert (H3 : parse_days (days_json (click_days
                  ["Segunda-feira"; "Terça-feira"; "Segunda-feira"]))
               = Some (JArr (map JStr (click_days
                         ["Segunda-feira"; "Terça-feira"; "Segunda-feira"]))))
    by reflexivity.
  exact (conj H1 (conj H2 (conj H3
           (conj (form_task_never_due parse_days
                    ["Segunda-feira"; "Terça-feira"; "Segunda-feira"] form_task
                    H1 H2 H3)
                 (conj eq_refl eq_refl))))).
Defined.

Lemma archive_integrity : integrity archive.
Proof. repeat constructor. Qed.

(** X15 at work: the archive through a run, a refused delete and a
    creation. *)
Lemma run_events_keep_integrity_archive :
  true = true /\
  integrity archive /\
  integrity
    (run_events parse_days decimal_id true sort_rows healthy
       [RunTask "2"; DeleteTaskById "2"; DeleteTaskById "1"; Elapse 4;
        TimerFires false; PostTask complete_task] archive).
Proof.
  exact (conj eq_refl (conj archive_integrity
           (run_events_keep_integrity parse_days decimal_id true sort_rows healthy
              [RunTask "2"; DeleteTaskById "2"; DeleteTaskById "1"; Elapse 4;
               TimerFires false; PostTask complete_task] archive
              eq_refl archive_integrity))).
Defined.

(** X16 at work: the nightly task of the archive has two log rows; after a
    refused delete and ten minutes it still cannot be deleted. *)
Lemma logged_task_stays_archive :
  true = true /\
  logged 1 archive /\
  logged 1
    (run_events parse_days decimal_id true sort_rows healthy
       [DeleteTaskById "1"; Elapse 600; Tick "Monday" "09:00"] archive) /\
  forall id_param,
    matches decimal_id (SText id_param) 1 = true ->
    healthy (List.length (issued
      (run_events parse_days decimal_id true sort_rows healthy
         [DeleteTaskById "1"; Elapse 600; Tick "Monday" "09:00"] archive)))
    = false ->
    snd (delete_task_route decimal_id true healthy id_param
      (run_events parse_days decimal_id true sort_rows healthy
         [DeleteTaskById "1"; Elapse 600; Tick "Monday" "09:00"] archive))
    = Some (json_error 500 "Erro ao excluir tarefa").
Proof.
  assert (H : logged 1 archive).
  { split; [reflexivity|]. constructor. reflexivity. }
  exact (conj eq_refl (conj H
           (logged_task_stays parse_days decimal_id true sort_rows healthy 1
              [DeleteTaskById "1"; Elapse 600; Tick "Monday" "09:00"] archive
              eq_refl H))).
Defined.
